(** * The comparison pipeline of [scripts/py/compare.py]

    A shallow embedding of the script that compares two S3 clients: the
    size parser, the workload-name parser and task generator, the payload
    parser, the per-client build and run steps, the metrics extractor, the
    table renderer and the driver [main]; then of the workload generator
    of [scripts/py/generate-tmp-workload.py] and of the dependency graph
    of [scripts/py/dependencies.py] with its two traversals.

    Conventions of the embedding.
    - A Python [str] is a list of characters ([list ascii]); a character
      stands for the code point of the same number, so the texts covered
      are those with code points below 256.
    - A Python [int] is a [Z]; the cap that recent interpreters put on the
      length of a decimal conversion is not modelled.
    - A Python exception is a value of [exn]; a function that may raise
      returns a [result].
    - Code that prints, spawns processes or reads files runs in the monad
      [M], which collects the events in order and asks the environment
      for what the outside world answers.
    - A Python [float] is kept as the decimal number its text denotes;
      binary rounding and the rendering of a float ([.2f]) are parameters. *)

From Stdlib Require Import Ascii String ZArith QArith Lia Bool List.
Import ListNotations.

Definition lit (s : string) : list ascii := list_ascii_of_string s.
Coercion lit : string >-> list.
Abbreviation pystr := (list ascii).

Open Scope string_scope.
Open Scope list_scope.
Open Scope Z_scope.

(** ** Exceptions and results *)

(** [Exception msg] is raised by the script's own [raise Exception(...)];
    the others are raised by built-ins: [ValueError s] by [int(s)] and
    [float(s)], [KeyError k] by [d[k]], [TypeError] and [AttributeError]
    by an operation on a value of the wrong shape, [JSONDecodeError] by
    [json.load]. *)
Inductive exn : Type :=
| Exception (msg : pystr)
| ValueError (arg : pystr)
| KeyError (key : pystr)
| TypeError
| AttributeError
| JSONDecodeError.

Inductive result (A : Type) : Type :=
| Ok (a : A)
| Raise (e : exn).
Arguments Ok {A} a.
Arguments Raise {A} e.

Definition rbind {A B} (r : result A) (f : A -> result B) : result B :=
  match r with
  | Ok a => f a
  | Raise e => Raise e
  end.

(** ** Characters and strings *)

Definition chr_eqb (a b : ascii) : bool := Ascii.eqb a b.

Fixpoint str_eqb (a b : pystr) : bool :=
  match a, b with
  | [], [] => true
  | x :: a', y :: b' => chr_eqb x y && str_eqb a' b'
  | _, _ => false
  end.

Definition code (c : ascii) : Z := Z.of_N (N_of_ascii c).

(** [c] is matched by [\d]: below 256 the decimal digits are [0]..[9]. *)
Definition is_digit (c : ascii) : bool := (48 <=? code c) && (code c <=? 57).

(** [c] is matched by [\s], and stripped by [int()]: tab, line feed,
    vertical tab, form feed, carriage return, the separators 28..31,
    space, next line (133) and no-break space (160). *)
Definition is_space (c : ascii) : bool :=
  ((9 <=? code c) && (code c <=? 13)) || ((28 <=? code c) && (code c <=? 32))
  || (code c =? 133) || (code c =? 160).

Definition digit_val (c : ascii) : Z := code c - 48.
Definition digit_char (d : Z) : ascii := ascii_of_N (Z.to_N (48 + d)).

Definition dquote : pystr := ["034"%char].
Definition newline : ascii := "010"%char.

(** The rest of [s] after the prefix [p], when [s.startswith(p)]. *)
Fixpoint strip_prefix (p s : pystr) : option pystr :=
  match p, s with
  | [], _ => Some s
  | x :: p', y :: s' => if chr_eqb x y then strip_prefix p' s' else None
  | _ :: _, [] => None
  end.

(** [s.endswith(p)]. *)
Definition endswith (s p : pystr) : bool :=
  (length p <=? length s)%nat &&
  str_eqb (skipn (length s - length p) s) p.

(** [s[:-n]] for [n > 0]. *)
Definition drop_last (n : nat) (s : pystr) : pystr :=
  firstn (length s - n) s.

(** [s.replace(old, new)] for a non-empty [old]: occurrences are replaced
    from the left and do not overlap. *)
Fixpoint replace_fuel (fuel : nat) (old new s : pystr) : pystr :=
  match fuel with
  | O => s
  | S f =>
      match strip_prefix old s with
      | Some rest => new ++ replace_fuel f old new rest
      | None =>
          match s with
          | [] => []
          | c :: s' => c :: replace_fuel f old new s'
          end
      end
  end.

Definition replace (old new s : pystr) : pystr :=
  replace_fuel (S (length s)) old new s.

(** [s.split(c)] for a separator of one character. *)
Fixpoint split (c : ascii) (s : pystr) : list pystr :=
  match s with
  | [] => [[]]
  | x :: s' =>
      if chr_eqb x c then [] :: split c s'
      else match split c s' with
           | [] => [[x]]
           | w :: ws => (x :: w) :: ws
           end
  end.

(** [sep.join(l)]. *)
Fixpoint join (sep : pystr) (l : list pystr) : pystr :=
  match l with
  | [] => []
  | [w] => w
  | w :: ws => w ++ sep ++ join sep ws
  end.

(** [c * n] for a string [c]. *)
Fixpoint str_repeat (c : pystr) (n : nat) : pystr :=
  match n with
  | O => []
  | S n' => c ++ str_repeat c n'
  end.



(** ** Integers and text *)

(** The decimal digits of a non-negative [n], least significant first. *)
Fixpoint digits_rev (fuel : nat) (n : Z) : pystr :=
  match fuel with
  | O => []
  | S f =>
      digit_char (n mod 10) :: (if n <? 10 then [] else digits_rev f (n / 10))
  end.

Definition str_of_nonneg (n : Z) : pystr :=
  rev (digits_rev (S (Z.to_nat (Z.log2 n))) n).

(** [str(n)]. *)
Definition str_of_int (n : Z) : pystr :=
  if n <? 0 then "-" ++ str_of_nonneg (- n) else str_of_nonneg n.

(** Digits in groups of three, on the reversed text. *)
Fixpoint group3_rev (l : pystr) : pystr :=
  match l with
  | a :: b :: c :: ((_ :: _) as rest) => a :: b :: c :: "_"%char :: group3_rev rest
  | _ => l
  end.

(** [f'{n:_}']: the decimal text with [_] between groups of three digits. *)
Definition format_underscore (n : Z) : pystr :=
  if n <? 0 then "-" ++ rev (group3_rev (rev (str_of_nonneg (- n))))
  else rev (group3_rev (rev (str_of_nonneg n))).

(** ['{:0w}'.format(n)]: the decimal text, with zeros after the sign up to
    the width [w]; a longer text is left as it is. *)
Definition format_zero_pad (w : Z) (n : Z) : pystr :=
  if n <? 0 then
    let d := str_of_nonneg (- n) in
    "-" ++ str_repeat "0" (Z.to_nat (w - 1) - length d) ++ d
  else
    let d := str_of_nonneg n in
    str_repeat "0" (Z.to_nat w - length d) ++ d.

Definition strip_left (s : pystr) : pystr :=
  (fix go (s : pystr) : pystr :=
     match s with
     | c :: s' => if is_space c then go s' else s
     | [] => []
     end) s.

Definition strip (s : pystr) : pystr := rev (strip_left (rev (strip_left s))).

(** The value of a text of digits and single underscores between digits;
    [None] when the text is not of that form. [prev] tells whether the
    character before was a digit. *)
Fixpoint int_body (s : pystr) (prev : bool) (acc : Z) : option Z :=
  match s with
  | [] => if prev then Some acc else None
  | c :: s' =>
      if is_digit c then int_body s' true (10 * acc + digit_val c)
      else if chr_eqb c "_" && prev then int_body s' false acc
      else None
  end.

(** [int(s)]: white space around, an optional sign, then digits. *)
Definition py_int (s : pystr) : result Z :=
  let body_val (b : pystr) : option Z :=
    match b with
    | [] => None
    | _ :: _ => int_body b false 0
    end in
  let r :=
    match strip s with
    | c :: b =>
        if chr_eqb c "-" then option_map Z.opp (body_val b)
        else if chr_eqb c "+" then body_val b
        else body_val (c :: b)
    | [] => None
    end in
  match r with
  | Some v => Ok v
  | None => Raise (ValueError s)
  end.

(** [int(math.log10(n))] for [n > 1]: the base-10 logarithm, truncated.
    [math.log10] computes in binary64; the embedding takes the exact
    logarithm, so that the result is the largest [k] with [10^k <= n]. *)
Fixpoint log10_fuel (fuel : nat) (n : Z) : Z :=
  match fuel with
  | O => 0
  | S f => if n <? 10 then 0 else 1 + log10_fuel f (n / 10)
  end.

Definition int_log10 (n : Z) : Z := log10_fuel (S (Z.to_nat (Z.log2 n))) n.

(** ** Regular expressions

    The fragment of [re] the script uses: literals, character classes,
    greedy [+] on a class, concatenation, ordered alternation, capture
    groups (none nested) and [$]. Matching backtracks as [re] does. *)
Inductive regex : Type :=
| RLit (s : pystr)
| RPlus (p : ascii -> bool)
| RCat (a b : regex)
| RAlt (a b : regex)
| RGroup (a : regex)
| REnd.

(** One or more characters of the class [p], as many as possible first. *)
Fixpoint plus_cls {R} (p : ascii -> bool) (s : pystr) (k : pystr -> option R)
  : option R :=
  match s with
  | c :: s' =>
      if p c then
        match plus_cls p s' k with
        | Some r => Some r
        | None => k s'
        end
      else None
  | [] => None
  end.

(** [$]: at the end of the text, or before a line feed that ends it. *)
Definition at_end (s : pystr) : bool :=
  match s with
  | [] => true
  | [c] => chr_eqb c newline
  | _ => false
  end.

(** [rmatch r s caps k] matches [r] at the start of [s] and hands the rest
    of the text and the groups captured so far to [k]; when [k] fails the
    next way of matching [r] is tried. *)
Fixpoint rmatch {R} (r : regex) (s : pystr) (caps : list pystr)
  (k : pystr -> list pystr -> option R) : option R :=
  match r with
  | RLit l =>
      match strip_prefix l s with
      | Some s' => k s' caps
      | None => None
      end
  | RPlus p => plus_cls p s (fun s' => k s' caps)
  | RCat a b => rmatch a s caps (fun s' caps' => rmatch b s' caps' k)
  | RAlt a b =>
      match rmatch a s caps k with
      | Some x => Some x
      | None => rmatch b s caps k
      end
  | RGroup a =>
      rmatch a s caps
        (fun s' caps' => k s' (caps' ++ [firstn (length s - length s') s]))
  | REnd => if at_end s then k s caps else None
  end.

(** [re.match(r, s)]: the groups of the first match at the start of [s]. *)
Definition re_match (r : regex) (s : pystr) : option (list pystr) :=
  rmatch r s [] (fun _ caps => Some caps).

(** [re.search(r, s)]: the groups of the leftmost match. *)
Fixpoint re_search (r : regex) (s : pystr) : option (list pystr) :=
  match re_match r s with
  | Some caps => Some caps
  | None =>
      match s with
      | [] => None
      | _ :: s' => re_search r s'
      end
  end.

Definition group (caps : list pystr) (n : nat) : pystr :=
  nth (n - 1) caps [].

(** ** [size_from_str] *)

(** [(\d+)(KiB|MiB|GiB|bytes|byte)$] *)
Definition size_pattern : regex :=
  RCat (RGroup (RPlus is_digit))
    (RCat (RGroup (RAlt (RLit "KiB") (RAlt (RLit "MiB") (RAlt (RLit "GiB")
             (RAlt (RLit "bytes") (RLit "byte"))))))
       REnd).

Definition illegal_size (size_str : pystr) : exn :=
  Exception ("Illegal size " ++ dquote ++ size_str ++ dquote
             ++ ". Expected something like " ++ dquote ++ "1KiB" ++ dquote).

Definition size_from_str (size_str : pystr) : result Z :=
  match re_match size_pattern size_str with
  | Some m =>
      rbind (py_int (group m 1)) (fun size =>
      let unit := group m 2 in
      let size :=
        if str_eqb unit "KiB" then size * 1024
        else if str_eqb unit "MiB" then size * (1024 * 1024)
        else if str_eqb unit "GiB" then size * (1024 * 1024 * 1024)
        else size in
      Ok size)
  | None => Raise (illegal_size size_str)
  end.


(** ** [parse_workload_name] and [generate_tasks_from_workload_name] *)

Definition invalid_name (name : pystr) : exn :=
  Exception ("Invalid workload name: " ++ name
             ++ ". Expected: {action}-{size}-{count}x[-ram]").

Definition invalid_action (action : pystr) : exn :=
  Exception ("Invalid action: " ++ action ++ ". Must be " ++ dquote ++ "upload"
             ++ dquote ++ " or " ++ dquote ++ "download" ++ dquote).

Definition invalid_count (count_part : pystr) : exn :=
  Exception ("Invalid count format: " ++ count_part ++ ". Must end with "
             ++ dquote ++ "x" ++ dquote).

(** Returns [(action, file_size_str, num_files, files_on_disk)]. *)
Definition parse_workload_name (name : pystr)
  : result (pystr * pystr * Z * bool) :=
  let name := replace ".json" "" name in
  let '(files_on_disk, name) :=
    if endswith name "-ram" then (false, drop_last 4 name) else (true, name) in
  let parts := split "-" name in
  if (length parts <? 3)%nat then Raise (invalid_name name)
  else
    let action := nth 0 parts [] in
    if negb (str_eqb action "upload" || str_eqb action "download")
    then Raise (invalid_action action)
    else
      let file_size_str := nth 1 parts [] in
      let count_part := join "-" (skipn 2 parts) in
      if negb (endswith count_part "x") then Raise (invalid_count count_part)
      else
        rbind (py_int (replace "_" "" (drop_last 1 count_part)))
          (fun num_files => Ok (action, file_size_str, num_files, files_on_disk)).

Record task : Type := mkTask {
  action : pystr;
  key : pystr;
  size : Z
}.

(** [int(math.log10(num_files)) + 1 if num_files > 1 else 1] *)
Definition int_width (num_files : Z) : Z :=
  if 1 <? num_files then int_log10 num_files + 1 else 1.

(** [range(n)] *)
Definition range (n : Z) : list Z := map Z.of_nat (seq 0 (Z.to_nat n)).

(** The tasks of a workload once its name is parsed: the body of
    [generate_tasks_from_workload_name] after its first two lines. *)
Definition expand_tasks (action file_size_str : pystr) (num_files file_size : Z)
  : list task :=
  let dirname := file_size_str ++ "-" ++ format_underscore num_files ++ "x" in
  let int_width := int_width num_files in
  map (fun i =>
         let filename := format_zero_pad int_width (i + 1) in
         mkTask action (action ++ "/" ++ dirname ++ "/" ++ filename) file_size)
      (range num_files).

Definition generate_tasks_from_workload_name (name : pystr)
  : result (list task * bool) :=
  rbind (parse_workload_name name) (fun '(action, file_size_str, num_files, files_on_disk) =>
  rbind (size_from_str file_size_str) (fun file_size =>
  Ok (expand_tasks action file_size_str num_files file_size, files_on_disk))).

(** ** JSON values

    What [json.load] returns, with a [dict] as the list of its items in
    order. A JSON number is an integer here: fractions are not covered. *)
#[local] Unset Elimination Schemes.
Inductive json : Type :=
| JNull
| JBool (b : bool)
| JInt (n : Z)
| JStr (s : pystr)
| JArr (l : list json)
| JObj (items : list (pystr * json)).
#[local] Set Elimination Schemes.

Fixpoint lookup (k : pystr) (items : list (pystr * json)) : option json :=
  match items with
  | [] => None
  | (k', v) :: rest => if str_eqb k k' then Some v else lookup k rest
  end.

(** [k in d] *)
Definition has_key (k : pystr) (items : list (pystr * json)) : bool :=
  match lookup k items with Some _ => true | None => false end.

(** [d[k]] *)
Definition getitem (items : list (pystr * json)) (k : pystr) : result json :=
  match lookup k items with
  | Some v => Ok v
  | None => Raise (KeyError k)
  end.

(** [d.get(k, default)] *)
Definition get (items : list (pystr * json)) (k : pystr) (default : json) : json :=
  match lookup k items with
  | Some v => v
  | None => default
  end.

(** The truth value of [v]. *)
Definition truthy (v : json) : bool :=
  match v with
  | JNull => false
  | JBool b => b
  | JInt n => negb (n =? 0)
  | JStr s => negb (length s =? 0)%nat
  | JArr l => negb (length l =? 0)%nat
  | JObj l => negb (length l =? 0)%nat
  end.

(** [a and b] *)
Definition py_and (a b : json) : json := if truthy a then b else a.

Definition hex_digit (d : Z) : ascii :=
  if d <? 10 then digit_char d else ascii_of_N (Z.to_N (87 + d)).

(** One character inside [repr(s)], [q] being the quote chosen. *)
Definition repr_char (q c : ascii) : pystr :=
  if chr_eqb c q || chr_eqb c "\" then ["\"%char; c]
  else if code c =? 9 then "\t"
  else if code c =? 10 then "\n"
  else if code c =? 13 then "\r"
  else if (code c <? 32) || ((127 <=? code c) && (code c <=? 160)) || (code c =? 173)
       then "\x" ++ [hex_digit (code c / 16); hex_digit (code c mod 16)]
  else [c].

(** [repr(s)] for a string. *)
Definition repr_str (s : pystr) : pystr :=
  let q : ascii :=
    if existsb (chr_eqb "'") s && negb (existsb (chr_eqb "034") s)
    then "034"%char else "'"%char in
  [q] ++ flat_map (repr_char q) s ++ [q].

(** [repr(v)] *)
Fixpoint py_repr (v : json) : pystr :=
  match v with
  | JNull => "None"
  | JBool true => "True"
  | JBool false => "False"
  | JInt n => str_of_int n
  | JStr s => repr_str s
  | JArr l => "[" ++ join ", " (map py_repr l) ++ "]"
  | JObj items =>
      "{" ++ join ", " (map (fun kv => match kv with
                                       | (k, x) => repr_str k ++ ": " ++ py_repr x
                                       end) items) ++ "}"
  end.

(** [str(v)], as an f-string renders [{v}]. *)
Definition py_str (v : json) : pystr :=
  match v with
  | JStr s => s
  | _ => py_repr v
  end.

(** [len(v)] *)
Definition py_len (v : json) : result Z :=
  match v with
  | JStr s => Ok (Z.of_nat (length s))
  | JArr l => Ok (Z.of_nat (length l))
  | JObj l => Ok (Z.of_nat (length l))
  | _ => Raise TypeError
  end.

(** The elements [list.extend(v)] appends. *)
Definition py_iter (v : json) : result (list json) :=
  match v with
  | JStr s => Ok (map (fun c => JStr [c]) s)
  | JArr l => Ok l
  | JObj l => Ok (map (fun kv => JStr (fst kv)) l)
  | _ => Raise TypeError
  end.

Definition task_json (t : task) : json :=
  JObj [("action" : pystr, JStr (action t)); ("key" : pystr, JStr (key t));
        ("size" : pystr, JInt (size t))].

(** ** The text of the table *)

(** The box-drawing characters of the table, which lie above code point
    255: horizontal and vertical line, the tee pointing down, the four
    corners and the two side tees. *)
Inductive box : Type :=
| BoxH | BoxV | BoxTee
| BoxTopLeft | BoxTopRight | BoxLeft | BoxRight | BoxBottomLeft | BoxBottomRight.

(** A character of the rendered table. *)
Inductive tchar : Type :=
| Ch (c : ascii)
| Bx (b : box).

Abbreviation text := (list tchar).

Definition txt (s : pystr) : text := map Ch s.

(** ** The outside world *)

Inductive path : Type :=
| REPO_ROOT
| PathOf (s : pystr)
| PDiv (p : path) (s : pystr).

Definition FILES_DIR : path := PDiv REPO_ROOT "files".
Definition SCRIPTS_DIR : path := PDiv REPO_ROOT "scripts".

Record proc_result : Type := mkProc {
  returncode : Z;
  stdout : pystr;
  stderr : pystr
}.

Inductive file_state : Type :=
| NoFile
| BadJson
| JsonFile (data : json).

(** What the script does not decide: the result of the [n]-th process it
    spawns (counting from 0), the files it may read, the name of the
    temporary file, and how [pathlib] renders a path. Every process is
    taken to terminate; the system calls the script makes without a
    check ([mkdir], [chdir], the temporary file, [unlink]) succeed. *)
Record environ : Type := mkEnv {
  proc : nat -> proc_result;
  file : path -> file_state;
  tmp_name : pystr;
  path_str : path -> pystr
}.

Inductive spawn_mode : Type := Inherit | DevNull | Capture.

(** What the script does to the outside world, one event per statement:
    [Log] is the [print] inside [log], [Echo] and [EchoErr] the prints of
    a runner's captured output, [Table] the [print(table)] of [main] and
    [ErrorLine e] its [print(f"Error: {e}", file=sys.stderr)]. *)
Inductive event : Type :=
| Log (msg : pystr)
| Echo (text : pystr)
| EchoErr (text : pystr)
| Table (table : text)
| ErrorLine (e : exn)
| Spawn (cmd : list pystr) (cwd : option path) (mode : spawn_mode)
| Mkdir (p : path)
| Chdir (p : path)
| WriteJson (name : pystr) (content : json)
| Unlink (name : pystr).

(** ** The monad of the script: environment, process counter, events

    A computation reads the environment, is given the number of processes
    spawned so far, and returns its result, the events it caused in order
    and the new number of processes. *)

Definition M (A : Type) : Type := environ -> nat -> result A * list event * nat.

Definition ret {A} (a : A) : M A := fun _ n => (Ok a, [], n).
Definition raise {A} (e : exn) : M A := fun _ n => (Raise e, [], n).

Definition bind {A B} (m : M A) (f : A -> M B) : M B :=
  fun env n =>
    match m env n with
    | (Ok a, ev, n') =>
        match f a env n' with
        | (r, ev', n'') => (r, ev ++ ev', n'')
        end
    | (Raise e, ev, n') => (Raise e, ev, n')
    end.

Definition lift {A} (r : result A) : M A := fun _ n => (r, [], n).
Definition emit (e : event) : M unit := fun _ n => (Ok tt, [e], n).
Definition ask : M environ := fun env n => (Ok env, [], n).

Declare Scope monad_scope.
Delimit Scope monad_scope with monad.
Notation "x <- c1 ;; c2" := (bind c1 (fun x => c2))
  (at level 61, c1 at next level, right associativity) : monad_scope.
Notation "' pat <- c1 ;; c2" := (bind c1 (fun x => match x with pat => c2 end))
  (at level 61, pat pattern, c1 at next level, right associativity) : monad_scope.
Notation "c1 ;; c2" := (bind c1 (fun _ => c2))
  (at level 61, right associativity) : monad_scope.
Open Scope monad_scope.

(** [log(msg, verbose)] *)
Definition log (msg : pystr) (verbose : bool) : M unit :=
  if verbose then emit (Log msg) else ret tt.

(** [subprocess.run(cmd, cwd=cwd, ...)]: the process is the next one the
    environment answers for. *)
Definition subprocess_run (cmd : list pystr) (cwd : option path) (mode : spawn_mode)
  : M proc_result :=
  fun env n => (Ok (proc env n), [Spawn cmd cwd mode], S n).

(** [run_command(cmd, cwd, capture=False, verbose)], as every call of the
    script has it. *)
Definition run_command (cmd : list pystr) (cwd : option path) (verbose : bool)
  : M Z :=
  (if verbose then log ("Running: " ++ join " " cmd) true else ret tt) ;;
  result <- subprocess_run cmd cwd (if verbose then Inherit else DevNull) ;;
  ret (returncode result).

(** ** [parse_payload] *)

Definition VERSION : Z := 2.
Definition DEFAULT_MAX_REPEAT_COUNT : Z := 10.
Definition DEFAULT_MAX_REPEAT_SECS : Z := 600.

(** The workload built from a list of tasks. *)
Definition make_workload (files_on_disk : json) (all_tasks : list json) : json :=
  JObj [("version" : pystr, JInt VERSION);
        ("filesOnDisk" : pystr, files_on_disk);
        ("checksum" : pystr, JNull);
        ("maxRepeatCount" : pystr, JInt DEFAULT_MAX_REPEAT_COUNT);
        ("maxRepeatSecs" : pystr, JInt DEFAULT_MAX_REPEAT_SECS);
        ("tasks" : pystr, JArr all_tasks)].

(** One turn of the loop over the elements of a JSON array. *)
Definition combine_item (st : list json * json) (item : json)
  : result (list json * json) :=
  let '(all_tasks, files_on_disk) := st in
  match item with
  | JObj d =>
      if has_key "tasks" d then
        rbind (getitem d "tasks") (fun ts =>
        rbind (py_iter ts) (fun ts =>
        let all_tasks := all_tasks ++ ts in
        if has_key "filesOnDisk" d then
          rbind (getitem d "filesOnDisk") (fun fod =>
          Ok (all_tasks, py_and files_on_disk fod))
        else Ok (all_tasks, files_on_disk)))
      else
        rbind (getitem d "action") (fun action =>
        rbind (getitem d "fileSize") (fun file_size_str =>
        rbind (getitem d "numFiles") (fun num_files =>
        let files_on_disk := get d "filesOnDisk" (JBool true) in
        let name := py_str action ++ "-" ++ py_str file_size_str ++ "-"
                    ++ py_str num_files ++ "x" in
        rbind (generate_tasks_from_workload_name name) (fun '(tasks, _) =>
        Ok (all_tasks ++ map task_json tasks, files_on_disk)))))
  | _ => Raise TypeError
  end.

Fixpoint combine_items (st : list json * json) (data : list json)
  : result (list json * json) :=
  match data with
  | [] => Ok st
  | item :: rest => rbind (combine_item st item) (fun st' => combine_items st' rest)
  end.

(** The loop over workload names. *)
Fixpoint parse_names (names : list pystr) (verbose : bool) (st : list json * bool)
  : M (list json * bool) :=
  match names with
  | [] => ret st
  | name :: rest =>
      log ("  Parsing: " ++ name) verbose ;;
      '(tasks, fod) <- lift (generate_tasks_from_workload_name name) ;;
      parse_names rest verbose (fst st ++ map task_json tasks, snd st && fod)
  end.

(** Returns [(workload, workload['filesOnDisk'])]. *)
Definition parse_payload (payload_args : list pystr) (verbose : bool)
  : M (json * json) :=
  log "Parsing payload..." verbose ;;
  env <- ask ;;
  workload <-
    (if (length payload_args =? 1)%nat && endswith (nth 0 payload_args []) ".json"
     then
       let json_path := PathOf (nth 0 payload_args []) in
       match file env json_path with
       | NoFile =>
           raise (Exception ("Payload file not found: " ++ path_str env json_path))
       | BadJson => raise JSONDecodeError
       | JsonFile (JArr data) =>
           '(all_tasks, files_on_disk) <- lift (combine_items ([], JBool true) data) ;;
           ret (make_workload files_on_disk all_tasks)
       | JsonFile (JObj d) => ret (JObj d)
       | JsonFile _ => raise AttributeError
       end
     else
       '(all_tasks, files_on_disk) <- parse_names payload_args verbose ([], true) ;;
       ret (make_workload (JBool files_on_disk) all_tasks)) ;;
  match workload with
  | JObj d =>
      tasks <- lift (getitem d "tasks") ;;
      n <- lift (py_len tasks) ;;
      log ("  Total tasks: " ++ str_of_int n) verbose ;;
      fod <- lift (getitem d "filesOnDisk") ;;
      log ("  Files on disk: " ++ py_str fod) verbose ;;
      ret (workload, fod)
  | _ => raise TypeError
  end.

(** The result of a computation started before any process was spawned. *)
Definition value {A} (m : M A) (env : environ) : result A := fst (fst (m env O)).

(** ** The steps of one client *)

Definition prep_files (workload_path bucket region : pystr) (verbose : bool)
  : M unit :=
  log ([newline] ++ "Preparing files...") verbose ;;
  emit (Mkdir FILES_DIR) ;;
  env <- ask ;;
  let cmd : list pystr :=
    ["python3" : pystr;
     path_str env (PDiv (PDiv SCRIPTS_DIR "py") "prep-s3-files.py");
     "--bucket" : pystr; bucket;
     "--region" : pystr; region;
     "--files-dir" : pystr; path_str env FILES_DIR;
     "--workloads" : pystr; workload_path] in
  returncode <- run_command cmd None verbose ;;
  if negb (returncode =? 0) then raise (Exception "File preparation failed")
  else ret tt.

Definition checkout_branch (repo_path branch : pystr) (verbose : bool) : M unit :=
  log ([newline] ++ "Checking out " ++ branch ++ " in " ++ repo_path ++ "...")
      verbose ;;
  let repo_full_path := PDiv REPO_ROOT repo_path in
  returncode <- run_command ["git" : pystr; "fetch" : pystr; "origin" : pystr]
                  (Some repo_full_path) verbose ;;
  if negb (returncode =? 0)
  then raise (Exception ("Git fetch failed in " ++ repo_path))
  else
    returncode <- run_command ["git" : pystr; "checkout" : pystr; branch]
                    (Some repo_full_path) verbose ;;
    if negb (returncode =? 0)
    then raise (Exception ("Git checkout failed for branch " ++ branch
                           ++ " in " ++ repo_path))
    else ret tt.

Definition python_clients : list pystr :=
  ["crt-python" : pystr; "boto3-crt" : pystr; "boto3-classic" : pystr;
   "cli-crt" : pystr; "cli-classic" : pystr].

Definition java_clients : list pystr :=
  ["crt-java" : pystr; "sdk-java-client-crt" : pystr;
   "sdk-java-client-classic" : pystr; "sdk-java-tm-crt" : pystr;
   "sdk-java-tm-classic" : pystr].

(** [x in l] *)
Definition mem (x : pystr) (l : list pystr) : bool := existsb (str_eqb x) l.

Definition unknown_client (client_name : pystr) : exn :=
  Exception ("Unknown client: " ++ client_name).

Definition get_build_type (client_name : pystr) : result pystr :=
  if str_eqb client_name "crt-c" then Ok ("aws-c-s3" : pystr)
  else if mem client_name python_clients then Ok ("python" : pystr)
  else if mem client_name java_clients then Ok ("java" : pystr)
  else if str_eqb client_name "sdk-rust-tm" then Ok ("rust" : pystr)
  else Raise (unknown_client client_name).

Definition clear_cmd (env : environ) (build_type : pystr) : list pystr :=
  [path_str env (PDiv SCRIPTS_DIR "clear.sh"); "--client" : pystr; build_type].

Definition build_cmd (env : environ) (build_type : pystr) : list pystr :=
  [path_str env (PDiv SCRIPTS_DIR "build.sh"); "--client" : pystr; build_type].

Definition rebuild_client (client_name : pystr) (verbose : bool) : M unit :=
  log ([newline] ++ "Rebuilding " ++ client_name ++ "...") verbose ;;
  build_type <- lift (get_build_type client_name) ;;
  env <- ask ;;
  returncode <- run_command (clear_cmd env build_type) None verbose ;;
  (if negb (returncode =? 0)
   then log ("Warning: Clear failed for " ++ client_name) verbose
   else ret tt) ;;
  returncode <- run_command (build_cmd env build_type) None verbose ;;
  if negb (returncode =? 0)
  then raise (Exception ("Build failed for " ++ client_name))
  else ret tt.

(** The command line of the runner of a client. *)
Definition runner_cmd (env : environ)
  (client_name workload_path bucket region throughput : pystr)
  : result (list pystr) :=
  let args : list pystr := [client_name; workload_path; bucket; region; throughput] in
  let at_root (parts : list pystr) : pystr :=
    path_str env (fold_left PDiv parts REPO_ROOT) in
  if str_eqb client_name "crt-c" then
    Ok (at_root ["install" : pystr; "bin" : pystr; "s3-c" : pystr] :: args)
  else if mem client_name python_clients then
    Ok (at_root ["install" : pystr; "python-venv" : pystr; "bin" : pystr;
                 "python3" : pystr]
        :: at_root ["source" : pystr; "runners" : pystr; "s3-python" : pystr;
                    "main.py" : pystr]
        :: args)
  else if mem client_name java_clients then
    Ok (("java" : pystr) :: ("-jar" : pystr)
        :: at_root ["source" : pystr; "runners" : pystr; "s3-java" : pystr;
                    "target" : pystr;
                    "s3-benchrunner-java-1.0-SNAPSHOT.jar" : pystr]
        :: args)
  else if str_eqb client_name "sdk-rust-tm" then
    Ok (at_root ["source" : pystr; "runners" : pystr; "s3-rust" : pystr;
                 "target" : pystr; "release" : pystr;
                 "s3-benchrunner-rust" : pystr]
        :: args)
  else Raise (unknown_client client_name).

(** Returns the captured standard output of the runner. *)
Definition run_benchmark
  (client_name workload_path bucket region throughput : pystr) (verbose : bool)
  : M pystr :=
  log ([newline] ++ "Running benchmark for " ++ client_name ++ "...") verbose ;;
  emit (Chdir FILES_DIR) ;;
  env <- ask ;;
  cmd <- lift (runner_cmd env client_name workload_path bucket region throughput) ;;
  result <-
    (if verbose then
       log ("Running: " ++ join " " cmd) true ;;
       result <- subprocess_run cmd None Capture ;;
       emit (Echo (stdout result)) ;;
       (if negb (length (stderr result) =? 0)%nat
        then emit (EchoErr (stderr result)) else ret tt) ;;
       ret result
     else subprocess_run cmd None Capture) ;;
  if negb (returncode result =? 0) then
    emit (EchoErr ("Error running benchmark for " ++ client_name ++ ":")) ;;
    emit (EchoErr (stdout result)) ;;
    emit (EchoErr (stderr result)) ;;
    raise (Exception ("Benchmark failed for " ++ client_name))
  else ret (stdout result).

(** ** [parse_metrics] *)

Definition nat_of_digits (s : pystr) : Z :=
  fold_left (fun acc c => 10 * acc + digit_val c) s 0.

(** [float(s)] for a text [s] of digits and dots, the only texts the script
    converts: the number is the one the decimal text denotes, and a text
    without a digit or with two dots is refused. *)
Definition py_float (s : pystr) : result Q :=
  match split "." s with
  | [a] =>
      if forallb is_digit a && negb (length a =? 0)%nat
      then Ok (inject_Z (nat_of_digits a))
      else Raise (ValueError s)
  | [a; b] =>
      if forallb is_digit (a ++ b) && negb (length (a ++ b) =? 0)%nat
      then Ok (Qred (Qmake (nat_of_digits (a ++ b))
                           (Z.to_pos (10 ^ Z.of_nat (length b)))))
      else Raise (ValueError s)
  | _ => Raise (ValueError s)
  end.

Record run_entry : Type := mkRun {
  run : Z;
  secs : Q;
  gbps : Q
}.

Record metrics : Type := mkMetrics {
  runs : list run_entry;
  throughput_median : option Q;
  throughput_mean : option Q;
  throughput_min : option Q;
  throughput_max : option Q;
  duration_median : option Q;
  duration_mean : option Q;
  duration_min : option Q;
  duration_max : option Q;
  peak_rss : option Q
}.

Definition empty_metrics : metrics :=
  mkMetrics [] None None None None None None None None None.

Definition is_digit_or_dot (c : ascii) : bool := is_digit c || chr_eqb c ".".

(** [Run:(\d+)\s+Secs:([\d.]+)\s+Gb/s:([\d.]+)] *)
Definition run_pattern : regex :=
  RCat (RLit "Run:") (RCat (RGroup (RPlus is_digit)) (RCat (RPlus is_space)
  (RCat (RLit "Secs:") (RCat (RGroup (RPlus is_digit_or_dot)) (RCat (RPlus is_space)
  (RCat (RLit "Gb/s:") (RGroup (RPlus is_digit_or_dot)))))))).

(** [\s+Median:([\d.]+)\s+Mean:([\d.]+)\s+Min:([\d.]+)\s+Max:([\d.]+)] *)
Definition aggregate_tail : regex :=
  RCat (RPlus is_space) (RCat (RLit "Median:") (RCat (RGroup (RPlus is_digit_or_dot))
  (RCat (RPlus is_space) (RCat (RLit "Mean:") (RCat (RGroup (RPlus is_digit_or_dot))
  (RCat (RPlus is_space) (RCat (RLit "Min:") (RCat (RGroup (RPlus is_digit_or_dot))
  (RCat (RPlus is_space) (RCat (RLit "Max:") (RGroup (RPlus is_digit_or_dot)))))))))))).

(** [Overall Throughput \(Gb/s\)] followed by the four aggregates. *)
Definition throughput_pattern : regex :=
  RCat (RLit "Overall Throughput (Gb/s)") aggregate_tail.

(** [Overall Duration \(Secs\)] followed by the four aggregates. *)
Definition duration_pattern : regex :=
  RCat (RLit "Overall Duration (Secs)") aggregate_tail.

(** [Peak RSS:([\d.]+)\s+MiB] *)
Definition rss_pattern : regex :=
  RCat (RLit "Peak RSS:") (RCat (RGroup (RPlus is_digit_or_dot))
  (RCat (RPlus is_space) (RLit "MiB"))).

Definition add_run (m : metrics) (r : run_entry) : metrics :=
  mkMetrics (runs m ++ [r])
    (throughput_median m) (throughput_mean m) (throughput_min m) (throughput_max m)
    (duration_median m) (duration_mean m) (duration_min m) (duration_max m)
    (peak_rss m).

Definition set_throughput (m : metrics) (med mean mn mx : Q) : metrics :=
  mkMetrics (runs m) (Some med) (Some mean) (Some mn) (Some mx)
    (duration_median m) (duration_mean m) (duration_min m) (duration_max m)
    (peak_rss m).

Definition set_duration (m : metrics) (med mean mn mx : Q) : metrics :=
  mkMetrics (runs m)
    (throughput_median m) (throughput_mean m) (throughput_min m) (throughput_max m)
    (Some med) (Some mean) (Some mn) (Some mx)
    (peak_rss m).

Definition set_peak_rss (m : metrics) (v : Q) : metrics :=
  mkMetrics (runs m)
    (throughput_median m) (throughput_mean m) (throughput_min m) (throughput_max m)
    (duration_median m) (duration_mean m) (duration_min m) (duration_max m)
    (Some v).

(** The four floats of an aggregate line. *)
Definition four_floats (g : list pystr) : result (Q * Q * Q * Q) :=
  rbind (py_float (group g 1)) (fun a =>
  rbind (py_float (group g 2)) (fun b =>
  rbind (py_float (group g 3)) (fun c =>
  rbind (py_float (group g 4)) (fun d => Ok (a, b, c, d))))).

(** The body of the loop of [parse_metrics] on one line. *)
Definition parse_line (m : metrics) (line : pystr) : result metrics :=
  rbind
    (match re_search run_pattern line with
     | Some g =>
         rbind (py_int (group g 1)) (fun run_num =>
         rbind (py_float (group g 2)) (fun secs =>
         rbind (py_float (group g 3)) (fun gbps =>
         Ok (add_run m (mkRun run_num secs gbps)))))
     | None => Ok m
     end) (fun m =>
  rbind
    (match re_search throughput_pattern line with
     | Some g => rbind (four_floats g) (fun '(a, b, c, d) => Ok (set_throughput m a b c d))
     | None => Ok m
     end) (fun m =>
  rbind
    (match re_search duration_pattern line with
     | Some g => rbind (four_floats g) (fun '(a, b, c, d) => Ok (set_duration m a b c d))
     | None => Ok m
     end) (fun m =>
  match re_search rss_pattern line with
  | Some g => rbind (py_float (group g 1)) (fun v => Ok (set_peak_rss m v))
  | None => Ok m
  end))).

Fixpoint parse_lines (m : metrics) (lines : list pystr) : result metrics :=
  match lines with
  | [] => Ok m
  | line :: rest => rbind (parse_line m line) (fun m' => parse_lines m' rest)
  end.

Definition parse_metrics (output : pystr) : result metrics :=
  parse_lines empty_metrics (split newline output).
(** ** [format_comparison_table] *)

(** [f"{s:<{w}}"]: [s] followed by spaces up to the width [w]. *)
Definition ljust (s : pystr) (w : Z) : pystr :=
  s ++ str_repeat " " (Z.to_nat w - length s).

Definition metric_col_width : Z := 25.

(** [max(len(label1), len(label2), 15)] *)
Definition value_col_width (label1 label2 : pystr) : Z :=
  Z.max (Z.max (Z.of_nat (length label1)) (Z.of_nat (length label2))) 15.

(** One row of the table: three cells between vertical lines. *)
Definition row (vw : Z) (name cell1 cell2 : pystr) : text :=
  [Bx BoxV] ++ txt (" " ++ ljust name (metric_col_width - 2) ++ " ") ++
  [Bx BoxV] ++ txt (" " ++ ljust cell1 (vw - 2) ++ " ") ++
  [Bx BoxV] ++ txt (" " ++ ljust cell2 (vw - 2) ++ " ") ++ [Bx BoxV].

(** ["─" * metric_col_width + "┬" + "─" * w + "┬" + "─" * w] *)
Definition sep (vw : Z) : text :=
  repeat (Bx BoxH) (Z.to_nat metric_col_width) ++ [Bx BoxTee] ++
  repeat (Bx BoxH) (Z.to_nat vw) ++ [Bx BoxTee] ++
  repeat (Bx BoxH) (Z.to_nat vw).

(** [left + sep[1:-1] + right] *)
Definition border (vw : Z) (left right : box) : text :=
  [Bx left] ++ removelast (tl (sep vw)) ++ [Bx right].

Definition not_available_row (vw : Z) : text :=
  row vw "  (metrics not available)" "" "".

Section Rendering.

(** [f"{x:.2f}"] for a float [x]: the rendering of a binary float with two
    decimals is not part of the embedding. *)
Variable format_2f : Q -> pystr.

(** Formatting with [.2f] a value that may be [None]. *)
Definition cell_2f (v : option Q) : result pystr :=
  match v with
  | Some x => Ok (format_2f x)
  | None => Raise TypeError
  end.

(** A row with both values formatted with [.2f]. *)
Definition value_row (vw : Z) (name : pystr) (v1 v2 : option Q) : result text :=
  rbind (cell_2f v1) (fun c1 =>
  rbind (cell_2f v2) (fun c2 => Ok (row vw name c1 c2))).

(** The four rows of an aggregate. *)
Definition aggregate_rows (vw : Z)
  (med1 mean1 min1 max1 med2 mean2 min2 max2 : option Q) : result (list text) :=
  rbind (value_row vw "  Median" med1 med2) (fun r1 =>
  rbind (value_row vw "  Mean" mean1 mean2) (fun r2 =>
  rbind (value_row vw "  Min" min1 min2) (fun r3 =>
  rbind (value_row vw "  Max" max1 max2) (fun r4 => Ok [r1; r2; r3; r4])))).

Definition is_some {A} (o : option A) : bool :=
  match o with Some _ => true | None => false end.

(** The rows under the title of the throughput section. *)
Definition throughput_rows (vw : Z) (metrics1 metrics2 : metrics)
  : result (list text) :=
  if is_some (throughput_median metrics1) && is_some (throughput_median metrics2)
  then aggregate_rows vw
         (throughput_median metrics1) (throughput_mean metrics1)
         (throughput_min metrics1) (throughput_max metrics1)
         (throughput_median metrics2) (throughput_mean metrics2)
         (throughput_min metrics2) (throughput_max metrics2)
  else Ok [not_available_row vw].

(** The rows under the title of the duration section. *)
Definition duration_rows (vw : Z) (metrics1 metrics2 : metrics)
  : result (list text) :=
  if is_some (duration_median metrics1) && is_some (duration_median metrics2)
  then aggregate_rows vw
         (duration_median metrics1) (duration_mean metrics1)
         (duration_min metrics1) (duration_max metrics1)
         (duration_median metrics2) (duration_mean metrics2)
         (duration_min metrics2) (duration_max metrics2)
  else Ok [not_available_row vw].

(** The row of the peak memory. *)
Definition rss_row (vw : Z) (metrics1 metrics2 : metrics) : result text :=
  if is_some (peak_rss metrics1) && is_some (peak_rss metrics2)
  then value_row vw "Peak RSS (MiB)" (peak_rss metrics1) (peak_rss metrics2)
  else
    let val1 : pystr :=
      match peak_rss metrics1 with Some x => format_2f x | None => "N/A" end in
    let val2 : pystr :=
      match peak_rss metrics2 with Some x => format_2f x | None => "N/A" end in
    Ok (row vw "Peak RSS (MiB)" val1 val2).

(** The lines of the table, before ['\n'.join(lines)]. *)
Definition table_lines
  (client1_name client1_branch : pystr) (metrics1 : metrics)
  (client2_name client2_branch : pystr) (metrics2 : metrics)
  : result (list text) :=
  let label1 := client1_name ++ ":" ++ client1_branch in
  let label2 := client2_name ++ ":" ++ client2_branch in
  let vw := value_col_width label1 label2 in
  rbind (throughput_rows vw metrics1 metrics2) (fun throughput =>
  rbind (duration_rows vw metrics1 metrics2) (fun duration =>
  rbind (rss_row vw metrics1 metrics2) (fun rss =>
  Ok ([txt "";
       txt ("Comparing: " ++ label1 ++ " vs " ++ label2);
       txt "";
       border vw BoxTopLeft BoxTopRight;
       row vw "Metric" label1 label2;
       border vw BoxLeft BoxRight;
       row vw "Throughput (Gb/s)" "" ""]
      ++ throughput
      ++ [row vw "Duration (Secs)" "" ""]
      ++ duration
      ++ [rss;
          border vw BoxBottomLeft BoxBottomRight;
          txt ""])))).

Fixpoint join_lines (lines : list text) : text :=
  match lines with
  | [] => []
  | [l] => l
  | l :: rest => l ++ [Ch newline] ++ join_lines rest
  end.

Definition format_comparison_table
  (client1_name client1_branch : pystr) (metrics1 : metrics)
  (client2_name client2_branch : pystr) (metrics2 : metrics) : result text :=
  rbind (table_lines client1_name client1_branch metrics1
                     client2_name client2_branch metrics2)
        (fun lines => Ok (join_lines lines)).

End Rendering.

(** ** [main] *)

(** The command line, as [argparse] returns it. *)
Record args : Type := mkArgs {
  client1 : pystr;
  client1_branch : pystr;
  client1_repo : pystr;
  client2 : pystr;
  client2_branch : pystr;
  client2_repo : pystr;
  bucket : pystr;
  region : pystr;
  throughput : pystr;
  verbose : pystr;
  payload : list pystr
}.

(** [s.lower()] *)
Definition lower (s : pystr) : pystr :=
  map (fun c =>
         if ((65 <=? code c) && (code c <=? 90))
            || ((192 <=? code c) && (code c <=? 222) && negb (code c =? 215))
         then ascii_of_N (Z.to_N (code c + 32)) else c) s.

Section Driver.

Variable format_2f : Q -> pystr.

(** Checkout, rebuild and run of one client, then its metrics: the block
    that [main] has once for client 1 and once for client 2, [n] being
    the number shown in the banner. *)
Definition run_client (n : pystr) (name branch repo workload_path : pystr)
  (a : args) (verbose : bool) : M metrics :=
  log ([newline] ++ str_repeat "=" 60) verbose ;;
  log ("CLIENT " ++ n ++ ": " ++ name ++ ":" ++ branch) verbose ;;
  log (str_repeat "=" 60) verbose ;;
  checkout_branch repo branch verbose ;;
  rebuild_client name verbose ;;
  output <- run_benchmark name workload_path (bucket a) (region a) (throughput a)
              verbose ;;
  lift (parse_metrics output).

(** The body of the [try] of [main]. *)
Definition main_try (a : args) (verbose : bool) : M unit :=
  '(workload, files_on_disk) <- parse_payload (payload a) verbose ;;
  env <- ask ;;
  let workload_path := tmp_name env in
  emit (WriteJson workload_path workload) ;;
  log ([newline] ++ "Workload written to: " ++ workload_path) verbose ;;
  prep_files workload_path (bucket a) (region a) verbose ;;
  metrics1 <- run_client "1" (client1 a) (client1_branch a) (client1_repo a)
                workload_path a verbose ;;
  metrics2 <- run_client "2" (client2 a) (client2_branch a) (client2_repo a)
                workload_path a verbose ;;
  table <- lift (format_comparison_table format_2f
                   (client1 a) (client1_branch a) metrics1
                   (client2 a) (client2_branch a) metrics2) ;;
  emit (Table table) ;;
  emit (Unlink workload_path).

(** [main]: the exit code of the process and everything it did. An
    exception of the body is caught, reported on the error stream and
    turned into the exit code 1. *)
Definition main (a : args) (env : environ) : Z * list event :=
  let verbose := str_eqb (lower (verbose a)) "true" in
  match main_try a verbose env O with
  | (Ok _, tr, _) => (0, tr)
  | (Raise e, tr, _) => (1, tr ++ [ErrorLine e])
  end.

End Driver.

(** The commands of the processes spawned, in order. *)
Definition spawned (tr : list event) : list (list pystr) :=
  flat_map (fun e => match e with Spawn cmd _ _ => [cmd] | _ => [] end) tr.

(** The event is a report of [main]: the table or the error line. *)
Definition is_report (e : event) : bool :=
  match e with
  | Table _ | ErrorLine _ => true
  | _ => false
  end.

(** ** The workload generator of [scripts/py/generate-tmp-workload.py]

    The script has its own copy of [size_from_str], the same as that of
    [compare.py], for which [size_from_str] stands here as well. *)




(** ** The dependency graph of [scripts/py/dependencies.py] *)

(** The graph: each component with its direct dependencies, in the order
    of the dictionary. *)
Definition DEPENDENCIES : list (pystr * list pystr) :=
  [("aws-c-common" : pystr, []);
   ("aws-lc" : pystr, ["aws-c-common" : pystr]);
   ("s2n" : pystr, ["aws-c-common" : pystr]);
   ("aws-c-cal" : pystr, ["aws-c-common" : pystr; "aws-lc" : pystr; "s2n" : pystr]);
   ("aws-c-io" : pystr, ["aws-c-common" : pystr; "aws-c-cal" : pystr; "s2n" : pystr]);
   ("aws-checksums" : pystr, ["aws-c-common" : pystr]);
   ("aws-c-compression" : pystr, ["aws-c-common" : pystr]);
   ("aws-c-http" : pystr,
    ["aws-c-common" : pystr; "aws-c-io" : pystr; "aws-c-compression" : pystr]);
   ("aws-c-sdkutils" : pystr, ["aws-c-common" : pystr]);
   ("aws-c-auth" : pystr,
    ["aws-c-common" : pystr; "aws-c-io" : pystr; "aws-c-http" : pystr;
     "aws-c-sdkutils" : pystr; "aws-c-cal" : pystr]);
   ("aws-c-s3" : pystr,
    ["aws-c-common" : pystr; "aws-lc" : pystr; "s2n" : pystr; "aws-c-cal" : pystr;
     "aws-c-io" : pystr; "aws-checksums" : pystr; "aws-c-compression" : pystr;
     "aws-c-http" : pystr; "aws-c-sdkutils" : pystr; "aws-c-auth" : pystr]);
   ("aws-s3-transfer-manager-rs" : pystr, []);
   ("runner-s3-c" : pystr, ["aws-c-s3" : pystr]);
   ("runner-s3-rust" : pystr, ["aws-s3-transfer-manager-rs" : pystr])].

(** [DEPENDENCIES.get(component, [])] *)
Fixpoint get_dependencies_in (graph : list (pystr * list pystr)) (component : pystr)
  : list pystr :=
  match graph with
  | [] => []
  | (comp, deps) :: rest =>
      if str_eqb component comp then deps else get_dependencies_in rest component
  end.

Definition get_dependencies (component : pystr) : list pystr :=
  get_dependencies_in DEPENDENCIES component.

(** The direct dependents of a component, in the order of the
    dictionary. *)
Definition get_dependents (component : pystr) : list pystr :=
  flat_map (fun '(comp, deps) => if mem component deps then [comp] else [])
           DEPENDENCIES.

(** The inner function [visit] of a traversal, whose state is the set of
    the components visited and the list of results: a component not yet
    visited is marked, then its neighbours are visited in order, then
    [finish] adds the component to the results. The recursion of the
    script is bounded here by [fuel]; [None] tells that it was too
    small. *)
Fixpoint visit (neighbours : pystr -> list pystr)
  (finish : pystr -> list pystr -> list pystr) (fuel : nat) (comp : pystr)
  (st : list pystr * list pystr) : option (list pystr * list pystr) :=
  match fuel with
  | O => None
  | S f =>
      let '(visited, result) := st in
      if mem comp visited then Some st
      else
        match fold_left (fun acc n =>
                           match acc with
                           | Some s => visit neighbours finish f n s
                           | None => None
                           end)
                        (neighbours comp) (Some (comp :: visited, result)) with
        | Some (visited', result') => Some (visited', finish comp result')
        | None => None
        end
  end.

(** A bound on the depth of a traversal: a call visits a component not
    yet visited or returns at once. *)
Definition depth_bound : nat := S (S (length DEPENDENCIES)).

(** All the dependencies of a component, with the component last. *)
Definition get_all_dependencies (component : pystr) : option (list pystr) :=
  option_map snd
    (visit get_dependencies (fun comp result => result ++ [comp])
           depth_bound component ([], [])).

(** All the dependents of a component, without the component. *)
Definition get_all_dependents (component : pystr) : option (list pystr) :=
  option_map snd
    (visit get_dependents
           (fun comp result =>
              if negb (str_eqb comp component) then result ++ [comp] else result)
           depth_bound component ([], [])).

(** ** Notions used to state the properties *)



(** The part of every key of an expansion before the index. *)
Definition key_prefix (action file_size_str : pystr) (num_files : Z) : pystr :=
  action ++ "/" ++ (file_size_str ++ "-" ++ format_underscore num_files ++ "x") ++ "/".

(** The units of the size grammar and their multipliers. *)
Definition size_units : list (pystr * Z) :=
  [("KiB" : pystr, 1024); ("MiB" : pystr, 1024 * 1024);
   ("GiB" : pystr, 1024 * 1024 * 1024); ("bytes" : pystr, 1); ("byte" : pystr, 1)].

(** The character [c] does not occur in [s]. *)
Definition no_char (c : ascii) (s : pystr) : bool :=
  forallb (fun x => negb (chr_eqb x c)) s.

(** A JSON array of two elements: a fragment with no task that is not on
    disk, then a compact description of one upload that says nothing of
    the disk. *)
Definition mixed_array : json :=
  JArr [JObj [("tasks" : pystr, JArr []); ("filesOnDisk" : pystr, JBool false)];
        JObj [("action" : pystr, JStr "upload"); ("fileSize" : pystr, JStr "1MiB");
              ("numFiles" : pystr, JInt 1)]].

(** An environment for examples: every process exits with status 0 and
    prints nothing, the file [empty.json] holds the empty array, the file
    [mixed.json] holds [mixed_array] and no other file exists, and a path
    is rendered with [/] between its parts. *)
Fixpoint render_path (p : path) : pystr :=
  match p with
  | REPO_ROOT => "/repo"
  | PathOf s => s
  | PDiv p' s => render_path p' ++ "/" ++ s
  end.

Definition example_env : environ :=
  mkEnv (fun _ => mkProc 0 "" "")
        (fun p => match p with
                  | PathOf s =>
                      if str_eqb s "empty.json" then JsonFile (JArr [])
                      else if str_eqb s "mixed.json" then JsonFile mixed_array
                      else NoFile
                  | _ => NoFile
                  end)
        "/tmp/workload.json"
        render_path.

(** How an element of a JSON array speaks of the disk: its [filesOnDisk]
    field, and [True] when it has none. *)
Definition contribution (item : json) : json :=
  match item with
  | JObj d => get d "filesOnDisk" (JBool true)
  | _ => JBool true
  end.

(** The four values of an aggregate, when all four are set. *)
Definition quadruple (a b c d : option Q) : option (Q * Q * Q * Q) :=
  match a, b, c, d with
  | Some w, Some x, Some y, Some z => Some (w, x, y, z)
  | _, _, _, _ => None
  end.

Definition throughput_of (m : metrics) : option (Q * Q * Q * Q) :=
  quadruple (throughput_median m) (throughput_mean m)
            (throughput_min m) (throughput_max m).

Definition duration_of (m : metrics) : option (Q * Q * Q * Q) :=
  quadruple (duration_median m) (duration_mean m)
            (duration_min m) (duration_max m).

(** The four values of an aggregate are all set or all unset. *)
Definition all_or_nothing (a b c d : option Q) : Prop :=
  (a = None /\ b = None /\ c = None /\ d = None) \/ quadruple a b c d <> None.

(** A metric set as the data model has it: each aggregate is carried
    whole or is absent. *)
Definition well_formed (m : metrics) : Prop :=
  all_or_nothing (throughput_median m) (throughput_mean m)
                 (throughput_min m) (throughput_max m) /\
  all_or_nothing (duration_median m) (duration_mean m)
                 (duration_min m) (duration_max m).

(** The rows of a section of the table as the specification words them:
    four rows when the aggregate is present on both sides, one row
    otherwise. *)
Definition spec_section (format_2f : Q -> pystr) (vw : Z)
  (q1 q2 : option (Q * Q * Q * Q)) : list text :=
  match q1, q2 with
  | Some (med1, mean1, min1, max1), Some (med2, mean2, min2, max2) =>
      [row vw "  Median" (format_2f med1) (format_2f med2);
       row vw "  Mean" (format_2f mean1) (format_2f mean2);
       row vw "  Min" (format_2f min1) (format_2f min2);
       row vw "  Max" (format_2f max1) (format_2f max2)]
  | _, _ => [row vw "  (metrics not available)" "" ""]
  end.

(** The cell of a side in the row of the peak memory. *)
Definition spec_rss_cell (format_2f : Q -> pystr) (v : option Q) : pystr :=
  match v with
  | Some x => format_2f x
  | None => "N/A"
  end.

(** A metric set with the aggregate of the throughput and the peak
    memory, and no aggregate of the duration. *)
Definition sample_metrics : metrics :=
  mkMetrics [mkRun 1 (1 # 2) (51 # 5)]
            (Some (51 # 5)) (Some (51 # 5)) (Some (51 # 5)) (Some (51 # 5))
            None None None None (Some (1282 # 5)).

(** A stand-in for the two-decimal rendering, for examples: the numerator
    and the denominator of the number. *)
Definition sample_format_2f (x : Q) : pystr :=
  str_of_int (Qnum x) ++ "/" ++ str_of_int (Z.pos (Qden x)).

(** The command of the file preparation. *)
Definition prep_cmd (env : environ) (a : args) : list pystr :=
  ["python3" : pystr;
   path_str env (PDiv (PDiv SCRIPTS_DIR "py") "prep-s3-files.py");
   "--bucket" : pystr; bucket a;
   "--region" : pystr; region a;
   "--files-dir" : pystr; path_str env FILES_DIR;
   "--workloads" : pystr; tmp_name env].

Definition build_type_of (client_name : pystr) : pystr :=
  match get_build_type client_name with
  | Ok build_type => build_type
  | Raise _ => []
  end.

Definition runner_of (env : environ) (a : args) (client_name : pystr) : list pystr :=
  match runner_cmd env client_name (tmp_name env) (bucket a) (region a)
                   (throughput a) with
  | Ok cmd => cmd
  | Raise _ => []
  end.

(** The commands of the steps of one client, in order: fetch, checkout,
    clear, build and run. *)
Definition client_plan (env : environ) (a : args) (name branch : pystr)
  : list (list pystr) :=
  [["git" : pystr; "fetch" : pystr; "origin" : pystr];
   ["git" : pystr; "checkout" : pystr; branch];
   clear_cmd env (build_type_of name);
   build_cmd env (build_type_of name);
   runner_of env a name].

(** The commands of the processes of a comparison in which nothing fails,
    in the order in which they are spawned: the file preparation, then
    the steps of client 1 and those of client 2. *)
Definition plan (env : environ) (a : args) : list (list pystr) :=
  [prep_cmd env a]
  ++ client_plan env a (client1 a) (client1_branch a)
  ++ client_plan env a (client2 a) (client2_branch a).

(** The exit status of the [n]-th process. *)
Definition exit_status (env : environ) (n : nat) : Z := returncode (proc env n).

(** Where the steps of one client stop. *)
Inductive stage : Type :=
| FetchFailed
| CheckoutFailed
| UnknownClient
| BuildFailed
| RunFailed
| BadMetrics
| Done.

(** The number of processes spawned for a client whose steps stop at a
    stage. *)
Definition stage_spawns (st : stage) : nat :=
  match st with
  | FetchFailed => 1
  | CheckoutFailed => 2
  | UnknownClient => 2
  | BuildFailed => 4
  | RunFailed => 5
  | BadMetrics => 5
  | Done => 5
  end.

(** What holds when the steps of the client [name], whose first process
    is the [n]-th, stop at the stage [st] with the result [r] after the
    events [ev]. *)
Definition stage_facts (env : environ) (name repo branch : pystr) (n : nat)
  (st : stage) (r : result metrics) (ev : list event) : Prop :=
  match st with
  | FetchFailed =>
      exit_status env n <> 0 /\
      r = Raise (Exception ("Git fetch failed in " ++ repo))
  | CheckoutFailed =>
      exit_status env n = 0 /\ exit_status env (n + 1) <> 0 /\
      r = Raise (Exception ("Git checkout failed for branch " ++ branch
                            ++ " in " ++ repo))
  | UnknownClient =>
      exit_status env n = 0 /\ exit_status env (n + 1) = 0 /\
      get_build_type name = Raise (unknown_client name) /\
      r = Raise (unknown_client name)
  | BuildFailed =>
      exit_status env n = 0 /\ exit_status env (n + 1) = 0 /\
      exit_status env (n + 3) <> 0 /\
      r = Raise (Exception ("Build failed for " ++ name)) /\
      exists build_type pre mode,
        get_build_type name = Ok build_type /\
        ev = pre ++ [Spawn (build_cmd env build_type) None mode]
  | RunFailed =>
      exit_status env n = 0 /\ exit_status env (n + 1) = 0 /\
      exit_status env (n + 3) = 0 /\ exit_status env (n + 4) <> 0 /\
      r = Raise (Exception ("Benchmark failed for " ++ name)) /\
      exists build_type, get_build_type name = Ok build_type
  | BadMetrics =>
      exit_status env n = 0 /\ exit_status env (n + 1) = 0 /\
      exit_status env (n + 3) = 0 /\ exit_status env (n + 4) = 0 /\
      (exists e, parse_metrics (stdout (proc env (n + 4))) = Raise e /\ r = Raise e) /\
      exists build_type, get_build_type name = Ok build_type
  | Done =>
      exit_status env n = 0 /\ exit_status env (n + 1) = 0 /\
      exit_status env (n + 3) = 0 /\ exit_status env (n + 4) = 0 /\
      (exists m, parse_metrics (stdout (proc env (n + 4))) = Ok m /\ r = Ok m) /\
      exists build_type, get_build_type name = Ok build_type
  end.

(** Where a comparison stops. *)
Inductive stop : Type :=
| ParseFailed
| PrepFailed
| Client1 (st : stage)
| Client2 (st : stage)
| TableFailed
| Completed.

(** The number of processes spawned by a comparison that stops there. *)
Definition stop_spawns (s : stop) : nat :=
  match s with
  | ParseFailed => 0
  | PrepFailed => 1
  | Client1 st => 1 + stage_spawns st
  | Client2 st => 6 + stage_spawns st
  | TableFailed => 11
  | Completed => 11
  end.

(** The events hold no table and no error line. *)
Definition no_report (tr : list event) : Prop := filter is_report tr = [].

(** A computation that spawns no process and reports nothing, whatever
    the environment: it leaves the counter of processes as it was. *)
Definition quiet {A} (m : M A) : Prop :=
  forall (env : environ) (n : nat),
    exists (r : result A) (ev : list event),
      m env n = (r, ev, n) /\ spawned ev = [] /\ no_report ev.

(** What holds when a comparison stops at [s] with the exit code [code]
    after the events [tr]: the last events, that nothing was reported
    before them, and how far each client got. The steps of client 1 start
    with process 1, those of client 2 with process 6. *)
Definition stop_facts (env : environ) (a : args) (s : stop) (code : Z)
  (tr : list event) : Prop :=
  let facts1 := stage_facts env (client1 a) (client1_repo a) (client1_branch a) 1 in
  let facts2 := stage_facts env (client2 a) (client2_repo a) (client2_branch a) 6 in
  match s with
  | ParseFailed =>
      code = 1 /\ exists pre e, tr = pre ++ [ErrorLine e] /\ no_report pre
  | PrepFailed =>
      code = 1 /\ exit_status env 0 <> 0 /\
      exists pre,
        tr = pre ++ [ErrorLine (Exception "File preparation failed")] /\
        no_report pre
  | Client1 st =>
      code = 1 /\ exit_status env 0 = 0 /\
      exists pre e,
        tr = pre ++ [ErrorLine e] /\ no_report pre /\ facts1 st (Raise e) pre
  | Client2 st =>
      code = 1 /\ exit_status env 0 = 0 /\
      (exists m1 ev1, facts1 Done (Ok m1) ev1) /\
      exists pre e,
        tr = pre ++ [ErrorLine e] /\ no_report pre /\ facts2 st (Raise e) pre
  | TableFailed =>
      code = 1 /\ exit_status env 0 = 0 /\
      (exists m1 ev1, facts1 Done (Ok m1) ev1) /\
      (exists m2 ev2, facts2 Done (Ok m2) ev2) /\
      exists pre e, tr = pre ++ [ErrorLine e] /\ no_report pre
  | Completed =>
      code = 0 /\ exit_status env 0 = 0 /\
      (exists m1 ev1, facts1 Done (Ok m1) ev1) /\
      (exists m2 ev2, facts2 Done (Ok m2) ev2) /\
      exists pre table,
        tr = pre ++ [Table table; Unlink (tmp_name env)] /\ no_report pre
  end.

(** A command line with a client name that is not known, and one with two
    known clients. *)
Definition unknown_client_args : args :=
  mkArgs "no-such-client" "main" "aws-c-s3" "crt-java" "main" "aws-crt-java"
         "bucket" "us-west-2" "100" "false" ["upload-1MiB-1x" : pystr].

Definition unknown_client2_args : args :=
  mkArgs "crt-c" "main" "aws-c-s3" "no-such-client" "main" "aws-crt-java"
         "bucket" "us-west-2" "100" "false" ["upload-1MiB-1x" : pystr].

Definition known_clients_args : args :=
  mkArgs "crt-c" "main" "aws-c-s3" "crt-java" "fix" "aws-crt-java"
         "bucket" "us-west-2" "100" "true" ["upload-1MiB-1x" : pystr].

(** An environment in which the tenth process, the build of client 2,
    exits with status 1 and every other process with status 0. *)
Definition build2_fails_env : environ :=
  mkEnv (fun n => mkProc (if (n =? 9)%nat then 1 else 0) "" "")
        (fun _ => NoFile) "/tmp/workload.json" render_path.

(** [s] is a size token: the digits [ds], then the unit [u], whose
    multiplier is [mult], then nothing or one line feed. *)
Definition size_token (s ds u : pystr) (mult : Z) : Prop :=
  ds <> [] /\ forallb is_digit ds = true /\ In (u, mult) size_units /\
  (s = ds ++ u \/ s = ds ++ u ++ [newline]).


(** The expansions of a list of names, one after the other: the tasks in
    order and the conjunction of the flags, or the error of the first name
    that has one. *)
Fixpoint expand_all (names : list pystr) : result (list task * bool) :=
  match names with
  | [] => Ok ([], true)
  | name :: rest =>
      rbind (generate_tasks_from_workload_name name) (fun '(tasks, fod) =>
      rbind (expand_all rest) (fun '(more, fods) => Ok (tasks ++ more, fod && fods)))
  end.

(** The flag of a fragment merged into the running flag: the conjunction
    with its field [filesOnDisk], and the running flag when it has none. *)
Definition merge_flag (running : json) (item : json) : json :=
  match item with
  | JObj d =>
      match lookup "filesOnDisk" d with
      | Some fod => py_and running fod
      | None => running
      end
  | _ => running
  end.

(** [item] is a fragment whose field [tasks] is the array [ts]. *)
Definition fragment (item : json) (ts : list json) : Prop :=
  exists d, item = JObj d /\ lookup "tasks" d = Some (JArr ts).

(** An environment for examples whose only file is [name], holding
    [data]; every process exits with status 0 and prints nothing. *)
Definition one_file_env (name : pystr) (data : json) : environ :=
  mkEnv (fun _ => mkProc 0 "" "")
        (fun p => match p with
                  | PathOf s => if str_eqb s name then JsonFile data else NoFile
                  | _ => NoFile
                  end)
        "/tmp/workload.json" render_path.

(** [b] when it is set, and [a] otherwise. *)
Definition or_else {A} (a b : option A) : option A :=
  match b with
  | Some _ => b
  | None => a
  end.

(** The metrics of two outputs put together: the runs of both in order,
    and every other field from the second output when it sets the field,
    from the first otherwise. *)
Definition merge_metrics (m1 m2 : metrics) : metrics :=
  mkMetrics (runs m1 ++ runs m2)
    (or_else (throughput_median m1) (throughput_median m2))
    (or_else (throughput_mean m1) (throughput_mean m2))
    (or_else (throughput_min m1) (throughput_min m2))
    (or_else (throughput_max m1) (throughput_max m2))
    (or_else (duration_median m1) (duration_median m2))
    (or_else (duration_mean m1) (duration_mean m2))
    (or_else (duration_min m1) (duration_min m2))
    (or_else (duration_max m1) (duration_max m2))
    (or_else (peak_rss m1) (peak_rss m2)).

(** A line in which the pattern [r] is found. *)
Definition found (r : regex) (line : pystr) : bool := is_some (re_search r line).

(** The names of the clients that are known. *)
Definition known_clients : list pystr :=
  ["crt-c" : pystr] ++ python_clients ++ java_clients ++ ["sdk-rust-tm" : pystr].

(** An environment in which the clear script of the first client, the
    fourth process, exits with status 1 and every other process with
    status 0. *)
Definition clear_fails_env : environ :=
  mkEnv (fun n => mkProc (if (n =? 3)%nat then 1 else 0) "" "")
        (fun _ => NoFile) "/tmp/workload.json" render_path.

(** Every event of the computation [m] satisfies [P], whatever the
    environment. *)
Definition confined {A} (P : event -> bool) (m : M A) : Prop :=
  forall (env : environ) (n : nat), forallb P (snd (fst (m env n))) = true.

(** An event that shows nothing of what the script logs or of what its
    processes print: not a log line, not the echo of a captured output,
    and not a process that inherits the streams. *)
Definition silent (e : event) : bool :=
  match e with
  | Log _ | Echo _ => false
  | Spawn _ _ Inherit => false
  | _ => true
  end.




(** The working directories of the processes of a sequence of events, in
    order, for a script that is in the directory [cur] before them: a
    process spawned with a directory of its own runs there, and any other
    one where the last [chdir] left the script. [None] is the directory
    the script was started from. *)
Fixpoint cwds_from (cur : option path) (tr : list event) : list (option path) :=
  match tr with
  | [] => []
  | Chdir p :: tr' => cwds_from (Some p) tr'
  | Spawn _ cwd _ :: tr' =>
      match cwd with
      | Some d => Some d
      | None => cur
      end :: cwds_from cur tr'
  | _ :: tr' => cwds_from cur tr'
  end.

(** The directory the script is in after a sequence of events. *)
Fixpoint cwd_after (cur : option path) (tr : list event) : option path :=
  match tr with
  | [] => cur
  | Chdir p :: tr' => cwd_after (Some p) tr'
  | _ :: tr' => cwd_after cur tr'
  end.

(** Events that neither spawn a process nor change the directory. *)
Definition stays (e : event) : bool :=
  match e with
  | Spawn _ _ _ | Chdir _ => false
  | _ => true
  end.


(** The names of the components of the graph. *)
Definition components : list pystr := map fst DEPENDENCIES.

(** Every component of [l] comes after its direct dependencies: each of
    them is in [seen] or before it in [l]. *)
Fixpoint after_dependencies (seen l : list pystr) : bool :=
  match l with
  | [] => true
  | x :: l' =>
      forallb (fun d => mem d seen) (get_dependencies x)
      && after_dependencies (x :: seen) l'
  end.

(** Every component of [l] comes after its direct dependents: each of
    them is in [seen] or before it in [l]. *)
Fixpoint after_dependents (seen l : list pystr) : bool :=
  match l with
  | [] => true
  | x :: l' =>
      forallb (fun d => mem d seen) (get_dependents x)
      && after_dependents (x :: seen) l'
  end.

(** No component occurs twice in [l]. *)
Fixpoint distinct (l : list pystr) : bool :=
  match l with
  | [] => true
  | x :: l' => negb (mem x l') && distinct l'
  end.

(** Every component of [l] but the last is a direct dependency of one
    that comes later in [l]. *)
Fixpoint all_needed (l : list pystr) : bool :=
  match l with
  | [] => true
  | [_] => true
  | x :: l' => existsb (fun y => mem x (get_dependencies y)) l' && all_needed l'
  end.

(** Every component of [l] has, among its direct dependencies, [root] or
    a component that comes later in [l]. *)
Fixpoint all_depending (root : pystr) (l : list pystr) : bool :=
  match l with
  | [] => true
  | x :: l' =>
      existsb (fun d => str_eqb d root || mem d l') (get_dependencies x)
      && all_depending root l'
  end.

(** What a sequence of events does, apart from what it shows: the events
    without the log lines and the echoes, and with every process as if it
    inherited the streams. *)
Definition deeds (tr : list event) : list event :=
  flat_map (fun e =>
              match e with
              | Log _ | Echo _ | EchoErr _ => []
              | Spawn cmd cwd _ => [Spawn cmd cwd Inherit]
              | _ => [e]
              end) tr.

(** Two computations that return the same, spawn as many processes and do
    the same, whatever the environment. *)
Definition similar {A} (m1 m2 : M A) : Prop :=
  forall (env : environ) (n : nat),
    fst (fst (m1 env n)) = fst (fst (m2 env n)) /\
    snd (m1 env n) = snd (m2 env n) /\
    deeds (snd (fst (m1 env n))) = deeds (snd (fst (m2 env n))).

(** The command line [a] with another argument [--verbose]. *)
Definition with_verbose (a : args) (v : pystr) : args :=
  mkArgs (client1 a) (client1_branch a) (client1_repo a)
         (client2 a) (client2_branch a) (client2_repo a)
         (bucket a) (region a) (throughput a) v (payload a).

(** What a failed run of the client [name] writes on the error stream. *)
Definition failure_report (name : pystr) (p : proc_result) : list event :=
  [EchoErr ("Error running benchmark for " ++ name ++ ":");
   EchoErr (stdout p); EchoErr (stderr p)].

(** * Properties of the embedding *)

(** ** Decimal texts *)

Section Decimal.















End Decimal.

(** ** Zero-padded indices and their order *)

Section Padding.













End Padding.

(** ** The keys of an expansion *)

Section Keys.








End Keys.

(** ** Expansion of workload names *)

(** C1. The payload [["upload-10MiB-3x"]] parses, whatever the environment
    and the verbosity, into the workload of version 2 with files on disk
    and exactly three tasks, of keys [upload/10MiB-3x/1],
    [upload/10MiB-3x/2] and [upload/10MiB-3x/3] in this order, each of
    action [upload] and of size 10485760 bytes. *)
Theorem payload_upload_10MiB_3x :
  forall (env : environ) (verbose : bool),
    value (parse_payload ["upload-10MiB-3x" : pystr] verbose) env
    = Ok (make_workload (JBool true)
            (map task_json
               [mkTask "upload" "upload/10MiB-3x/1" 10485760;
                mkTask "upload" "upload/10MiB-3x/2" 10485760;
                mkTask "upload" "upload/10MiB-3x/3" 10485760]),
          JBool true).
Proof. intros env [|]; vm_compute; reflexivity. Qed.








(** ** The size parser *)

Section Sizes.

Lemma digit_not_space (c : ascii) : is_digit c = true -> is_space c = false.
Proof.
  unfold is_digit, is_space. intros H.
  apply andb_prop in H as [H1 H2]. apply Z.leb_le in H1, H2.
  repeat (apply orb_false_intro); try (apply andb_false_intro1; apply Z.leb_gt; lia);
    try (apply andb_false_intro2; apply Z.leb_gt; lia); apply Z.eqb_neq; lia.
Qed.

Lemma digit_not_char (c d : ascii) :
  is_digit c = true -> is_digit d = false -> chr_eqb c d = false.
Proof.
  intros Hc Hd. unfold chr_eqb. destruct (Ascii.eqb_spec c d) as [-> |]; [| reflexivity].
  congruence.
Qed.

Lemma strip_left_digits (s : pystr) : forallb is_digit s = true -> strip_left s = s.
Proof.
  destruct s as [| c s]; [reflexivity |]. cbn [forallb]. intros H.
  apply andb_prop in H as [Hc _]. unfold strip_left.
  now rewrite (digit_not_space c Hc).
Qed.

Lemma strip_digits (s : pystr) : forallb is_digit s = true -> strip s = s.
Proof.
  intros H. unfold strip. rewrite (strip_left_digits s H).
  rewrite strip_left_digits; [apply rev_involutive |].
  apply forallb_forall. intros c Hc. apply in_rev in Hc.
  revert c Hc. now apply forallb_forall.
Qed.

Lemma int_body_digits (s : pystr) :
  forall (prev : bool) (acc : Z),
    s <> [] -> forallb is_digit s = true ->
    int_body s prev acc = Some (fold_left (fun a c => 10 * a + digit_val c) s acc).
Proof.
  induction s as [| c s IH]; intros prev acc Hne Hd; [congruence |].
  cbn [forallb] in Hd. apply andb_prop in Hd as [Hc Hs].
  cbn [int_body fold_left]. rewrite Hc.
  destruct s as [| c' s']; [reflexivity |].
  apply IH; [discriminate | exact Hs].
Qed.

(** [int] of a non-empty text of digits is the number they denote. *)
Lemma py_int_digits (s : pystr) :
  s <> [] -> forallb is_digit s = true -> py_int s = Ok (nat_of_digits s).
Proof.
  intros Hne Hd. unfold py_int. rewrite (strip_digits s Hd).
  destruct s as [| c b]; [congruence |].
  assert (Hc : is_digit c = true) by (cbn [forallb] in Hd; now apply andb_prop in Hd).
  rewrite (digit_not_char c "-" Hc eq_refl), (digit_not_char c "+" Hc eq_refl).
  rewrite int_body_digits by assumption. reflexivity.
Qed.

(** A greedy [+] takes a run of the class that the rest of the text does
    not continue, when the rest of the pattern accepts what follows. *)
Lemma plus_cls_greedy {R} (p : ascii -> bool) (run rest : pystr)
  (k : pystr -> option R) (r : R) :
  run <> [] -> forallb p run = true ->
  match rest with [] => true | c :: _ => negb (p c) end = true ->
  k rest = Some r ->
  plus_cls p (run ++ rest) k = Some r.
Proof.
  intros Hne Hrun Hrest Hk. induction run as [| c run IH]; [congruence |].
  cbn [forallb] in Hrun. apply andb_prop in Hrun as [Hc Hrun].
  cbn [app plus_cls]. rewrite Hc.
  destruct run as [| c' run'].
  - cbn [app]. destruct rest as [| d rest']; cbn [plus_cls]; [now rewrite Hk |].
    apply negb_true_iff in Hrest. now rewrite Hrest, Hk.
  - rewrite IH; [reflexivity | discriminate | exact Hrun].
Qed.

Lemma capture_prefix (a b : pystr) :
  firstn (length (a ++ b) - length b) (a ++ b) = a.
Proof.
  rewrite length_app, Nat.add_sub, firstn_app, Nat.sub_diag, firstn_all.
  cbn [firstn]. apply app_nil_r.
Qed.

Lemma size_pattern_matches (ds u : pystr) (mult : Z) :
  ds <> [] -> forallb is_digit ds = true -> In (u, mult) size_units ->
  re_match size_pattern (ds ++ u) = Some [ds; u].
Proof.
  intros Hne Hd Hu. unfold re_match, size_pattern. cbn [rmatch].
  apply plus_cls_greedy; [exact Hne | exact Hd | |].
  - cbn [size_units In] in Hu.
    repeat (destruct Hu as [[= <- <-] | Hu]; [reflexivity |]). contradiction.
  - rewrite capture_prefix. cbn [size_units In] in Hu.
    repeat (destruct Hu as [[= <- <-] | Hu]; [reflexivity |]). contradiction.
Qed.


(** A text outside the grammar is refused with the message that names it. *)
Example size_from_str_rejects_space :
  size_from_str "5 GiB" = Raise (illegal_size "5 GiB").
Proof. reflexivity. Qed.

(** C6. The size parser does not refuse every text outside the grammar:
    a size token followed by a line feed is accepted, because [$] also
    matches before a line feed that ends the text. The text [5GiB] with
    a line feed after it parses to 5368709120 instead of raising. *)
Theorem size_from_str_accepts_trailing_newline :
  size_from_str ("5GiB" ++ [newline]) = Ok 5368709120.
Proof. reflexivity. Qed.

End Sizes.

(** ** String operations on texts of a known shape *)

Section Shapes.

Lemma str_eqb_refl (a : pystr) : str_eqb a a = true.
Proof.
  induction a as [| x a IH]; [reflexivity |].
  cbn [str_eqb]. unfold chr_eqb. now rewrite Ascii.eqb_refl.
Qed.

Lemma str_eqb_eq (a : pystr) : forall b, str_eqb a b = true -> a = b.
Proof.
  induction a as [| x a IH]; intros [| y b] H; try discriminate; [reflexivity |].
  cbn [str_eqb] in H. apply andb_prop in H as [Hx Hab].
  apply Ascii.eqb_eq in Hx. f_equal; [exact Hx | now apply IH].
Qed.



Lemma replace_fuel_absent (fuel : nat) (c : ascii) (old new : pystr) :
  forall s, no_char c s = true -> replace_fuel fuel (c :: old) new s = s.
Proof.
  induction fuel as [| fuel IH]; intros s Hs; [reflexivity |].
  destruct s as [| x s]; [reflexivity |].
  cbn [no_char forallb] in Hs. apply andb_prop in Hs as [Hx Hs].
  apply negb_true_iff in Hx.
  cbn [replace_fuel strip_prefix]. unfold chr_eqb in *.
  rewrite Ascii.eqb_sym, Hx. f_equal. now apply IH.
Qed.

Lemma replace_absent (c : ascii) (old new s : pystr) :
  no_char c s = true -> replace (c :: old) new s = s.
Proof. apply replace_fuel_absent. Qed.

Lemma split_no_sep (c : ascii) (s : pystr) : no_char c s = true -> split c s = [s].
Proof.
  induction s as [| x s IH]; intros Hs; [reflexivity |].
  cbn [no_char forallb] in Hs. apply andb_prop in Hs as [Hx Hs].
  apply negb_true_iff in Hx. cbn [split]. now rewrite Hx, IH.
Qed.


Lemma endswith_app_same (a p : pystr) : endswith (a ++ p) p = true.
Proof.
  unfold endswith. apply andb_true_intro. split.
  - apply Nat.leb_le. rewrite length_app. lia.
  - rewrite length_app, Nat.add_sub, skipn_app, Nat.sub_diag, skipn_all.
    cbn [skipn app]. apply str_eqb_refl.
Qed.



End Shapes.

(** ** Empty task lists *)

Section EmptyTasks.







End EmptyTasks.

(** ** Merging the on-disk flags *)

Section Merge.

(** A name token clears the flag exactly when, its [.json] removed, it
    ends in [-ram]. *)
Lemma name_token_contribution (name action fs : pystr) (n : Z) (fod : bool) :
  parse_workload_name name = Ok (action, fs, n, fod) ->
  fod = negb (endswith (replace ".json" "" name) "-ram").
Proof.
  unfold parse_workload_name.
  destruct (endswith (replace ".json" "" name) "-ram");
    repeat match goal with
           | |- context [if ?c then _ else _] => destruct c
           end; try discriminate;
    (destruct (py_int _); cbn [rbind]; [| discriminate]); now intros [= _ _ _ <-].
Qed.

(** For a list of name tokens the flag of the workload is the conjunction
    of the flags of the tokens, and the tasks are theirs in order. *)
Lemma parse_names_merge (names : list pystr) (verbose : bool) (env : environ) :
  forall (st : list json * bool) (n : nat) (all_tasks : list json) (fod : bool),
    fst (fst (parse_names names verbose st env n)) = Ok (all_tasks, fod) ->
    exists expansions : list (list task * bool),
      Forall2 (fun name e => generate_tasks_from_workload_name name = Ok e)
              names expansions /\
      fod = snd st && forallb snd expansions /\
      all_tasks = fst st ++ flat_map (fun e => map task_json (fst e)) expansions.
Proof.
  induction names as [| name rest IH]; intros st n all_tasks fod H.
  - cbn in H. injection H as H. subst st. exists []. cbn.
    now rewrite andb_true_r, app_nil_r.
  - cbn [parse_names] in H. unfold bind, lift in H.
    destruct (log ("  Parsing: " ++ name) verbose env n) as [[[[] | e] ev] n1] eqn:El;
      [| unfold log in El; destruct verbose; discriminate].
    destruct (generate_tasks_from_workload_name name) as [[tasks f] | e] eqn:Eg;
      [| discriminate].
    destruct (parse_names rest verbose (fst st ++ map task_json tasks, snd st && f)
                env n1) as [[r ev'] n2] eqn:Er.
    cbn [fst] in H.
    assert (Hr : fst (fst (parse_names rest verbose
                             (fst st ++ map task_json tasks, snd st && f) env n1))
                 = Ok (all_tasks, fod)).
    { rewrite Er. cbn [fst]. destruct r; [exact H | discriminate]. }
    destruct (IH _ _ _ _ Hr) as (es & HF & Hfod & Htasks).
    exists ((tasks, f) :: es). split; [now constructor |].
    cbn [fst snd forallb flat_map] in *. split.
    + rewrite Hfod. now rewrite andb_assoc.
    + rewrite Htasks. now rewrite <- app_assoc.
Qed.

(** The example of the specification: two tokens of five files, the
    second in memory, give ten tasks and a workload not on disk. *)
Example payload_and_merge_example :
  forall (env : environ) (verbose : bool),
  exists tasks,
    value (parse_payload ["upload-1MiB-5x" : pystr; "download-1MiB-5x-ram" : pystr]
                         verbose) env
    = Ok (make_workload (JBool false) tasks, JBool false) /\
    length tasks = 10%nat.
Proof.
  intros env verbose. eexists. split.
  - destruct verbose; vm_compute; reflexivity.
  - reflexivity.
Qed.

(** C3. The flag of a JSON array is not the conjunction of what its
    elements say: a compact element overwrites the running value instead
    of merging into it. For [mixed_array], whose first element says
    [false] and whose second says nothing (so [True]), the conjunction is
    [false], yet the workload parsed from the file is on disk. *)
Theorem array_flag_is_overwritten :
  forall verbose : bool,
    map contribution [JObj [("tasks" : pystr, JArr []); ("filesOnDisk" : pystr, JBool false)];
                      JObj [("action" : pystr, JStr "upload");
                            ("fileSize" : pystr, JStr "1MiB");
                            ("numFiles" : pystr, JInt 1)]]
    = [JBool false; JBool true] /\
    value (parse_payload ["mixed.json" : pystr] verbose) example_env
    = Ok (make_workload (JBool true)
            [task_json (mkTask "upload" "upload/1MiB-1x/1" 1048576)],
          JBool true).
Proof. intros [|]; split; vm_compute; reflexivity. Qed.

End Merge.

(** ** The metrics extractor *)

Section Metrics.

(** A line in which none of the four patterns is found leaves the metrics
    as they are. *)
Lemma parse_line_ignored (m : metrics) (line : pystr) :
  re_search run_pattern line = None ->
  re_search throughput_pattern line = None ->
  re_search duration_pattern line = None ->
  re_search rss_pattern line = None ->
  parse_line m line = Ok m.
Proof. intros H1 H2 H3 H4. unfold parse_line. now rewrite H1, H2, H3, H4. Qed.

(** An output where no pattern is found gives the metric set with no run
    and every other field unset. *)
Lemma parse_lines_ignored (lines : list pystr) (m : metrics) :
  Forall (fun line =>
            re_search run_pattern line = None /\
            re_search throughput_pattern line = None /\
            re_search duration_pattern line = None /\
            re_search rss_pattern line = None) lines ->
  parse_lines m lines = Ok m.
Proof.
  induction 1 as [| line rest (H1 & H2 & H3 & H4) _ IH]; [reflexivity |].
  cbn [parse_lines]. rewrite parse_line_ignored by assumption. exact IH.
Qed.

(** The example of the specification: one run and the aggregate of the
    throughput, the duration and the peak memory unset. *)
Example parse_metrics_example :
  parse_metrics ("Run:1 Secs:0.50 Gb/s:10.20" ++ [newline] ++
                 "Overall Throughput (Gb/s) Median:10.20 Mean:10.20 Min:10.20 Max:10.20")
  = Ok (mkMetrics [mkRun 1 (1 # 2) (51 # 5)]
          (Some (51 # 5)) (Some (51 # 5)) (Some (51 # 5)) (Some (51 # 5))
          None None None None None).
Proof. vm_compute. reflexivity. Qed.

Lemma well_formed_add_run (m : metrics) (r : run_entry) :
  well_formed m -> well_formed (add_run m r).
Proof. now destruct m. Qed.

Lemma well_formed_set_throughput (m : metrics) (a b c d : Q) :
  well_formed m -> well_formed (set_throughput m a b c d).
Proof.
  destruct m. intros [_ Hd]. split; [| exact Hd]. right. discriminate.
Qed.

Lemma well_formed_set_duration (m : metrics) (a b c d : Q) :
  well_formed m -> well_formed (set_duration m a b c d).
Proof.
  destruct m. intros [Ht _]. split; [exact Ht |]. right. discriminate.
Qed.

Lemma well_formed_set_peak_rss (m : metrics) (v : Q) :
  well_formed m -> well_formed (set_peak_rss m v).
Proof. now destruct m. Qed.

Lemma parse_line_well_formed (m m' : metrics) (line : pystr) :
  well_formed m -> parse_line m line = Ok m' -> well_formed m'.
Proof.
  intros Hm. unfold parse_line.
  repeat match goal with
         | |- context [match re_search ?p ?l with _ => _ end] =>
             destruct (re_search p l)
         | |- context [rbind (py_int ?x) _] =>
             destruct (py_int x); cbn [rbind]; [| discriminate]
         | |- context [rbind (py_float ?x) _] =>
             destruct (py_float x); cbn [rbind]; [| discriminate]
         | |- context [rbind (four_floats ?g) _] =>
             destruct (four_floats g) as [[[[? ?] ?] ?] |]; cbn [rbind];
             [| discriminate]
         end;
    intros [= <-];
    repeat first [ apply well_formed_set_peak_rss
                 | apply well_formed_set_duration
                 | apply well_formed_set_throughput
                 | apply well_formed_add_run ];
    exact Hm.
Qed.

(** What the extractor returns carries each aggregate whole or not at
    all. *)
Lemma parse_metrics_well_formed (output : pystr) (m : metrics) :
  parse_metrics output = Ok m -> well_formed m.
Proof.
  unfold parse_metrics.
  assert (H0 : well_formed empty_metrics) by (split; left; repeat split).
  revert H0. generalize empty_metrics. generalize (split newline output).
  induction l as [| line rest IH]; intros m0 H0 H.
  - cbn in H. now injection H as <-.
  - cbn [parse_lines] in H.
    destruct (parse_line m0 line) as [m1 |] eqn:E; [| discriminate].
    cbn [rbind] in H. eapply IH; [| exact H].
    eapply parse_line_well_formed; eassumption.
Qed.

(** C8. The extractor fails on some texts: the class [[\d.]+] of the
    patterns accepts texts that [float] refuses. On the line
    [Peak RSS:. MiB] the peak-memory pattern matches with the group [.],
    and converting it raises [ValueError] instead of leaving the field
    unset. *)
Theorem parse_metrics_raises_on_lone_dot :
  re_search rss_pattern "Peak RSS:. MiB" = Some ["." : pystr] /\
  parse_metrics "Peak RSS:. MiB" = Raise (ValueError ".").
Proof. split; reflexivity. Qed.

End Metrics.

(** ** The comparison table *)

Section Table.

Variable format_2f : Q -> pystr.

(** C9. For two metric sets that carry each aggregate whole or not at
    all, the table is the heading, then for the throughput and for the
    duration a title row followed by the four rows Median, Mean, Min and
    Max in two-decimal format when the aggregate is present on both
    sides, and by the single row [(metrics not available)] otherwise,
    then the row of the peak memory, where a side without the value
    shows [N/A] and the other side its number, then the closing border. *)
Theorem table_sections :
  forall (client1_name client1_branch client2_name client2_branch : pystr)
         (metrics1 metrics2 : metrics),
    well_formed metrics1 -> well_formed metrics2 ->
    let label1 := client1_name ++ ":" ++ client1_branch in
    let label2 := client2_name ++ ":" ++ client2_branch in
    let vw := value_col_width label1 label2 in
    let lines :=
      [txt "";
       txt ("Comparing: " ++ label1 ++ " vs " ++ label2);
       txt "";
       border vw BoxTopLeft BoxTopRight;
       row vw "Metric" label1 label2;
       border vw BoxLeft BoxRight]
      ++ [row vw "Throughput (Gb/s)" "" ""]
      ++ spec_section format_2f vw (throughput_of metrics1) (throughput_of metrics2)
      ++ [row vw "Duration (Secs)" "" ""]
      ++ spec_section format_2f vw (duration_of metrics1) (duration_of metrics2)
      ++ [row vw "Peak RSS (MiB)"
              (spec_rss_cell format_2f (peak_rss metrics1))
              (spec_rss_cell format_2f (peak_rss metrics2));
          border vw BoxBottomLeft BoxBottomRight;
          txt ""] in
    table_lines format_2f client1_name client1_branch metrics1
                client2_name client2_branch metrics2 = Ok lines /\
    format_comparison_table format_2f client1_name client1_branch metrics1
                            client2_name client2_branch metrics2
    = Ok (join_lines lines).
Proof.
  intros c1 b1 c2 b2 m1 m2 H1 H2 label1 label2 vw lines.
  assert (Hl : table_lines format_2f c1 b1 m1 c2 b2 m2 = Ok lines).
  { subst lines. unfold table_lines. fold label1 label2. fold vw.
    generalize vw. intros w.
    destruct m1 as [r1 a1 b1' c1' d1 e1 f1 g1 h1 p1].
    destruct m2 as [r2 a2 b2' c2' d2 e2 f2 g2 h2 p2].
    destruct H1 as [Ht1 Hd1], H2 as [Ht2 Hd2].
    unfold all_or_nothing in *. cbn [throughput_median throughput_mean throughput_min
      throughput_max duration_median duration_mean duration_min duration_max] in *.
    unfold throughput_rows, duration_rows, rss_row, throughput_of, duration_of.
    cbn [throughput_median throughput_mean throughput_min
      throughput_max duration_median duration_mean duration_min duration_max peak_rss].
    destruct Ht1 as [(-> & -> & -> & ->) | Ht1];
      [| destruct a1, b1', c1', d1; try (now contradiction Ht1) ];
    (destruct Ht2 as [(-> & -> & -> & ->) | Ht2];
      [| destruct a2, b2', c2', d2; try (now contradiction Ht2) ]);
    (destruct Hd1 as [(-> & -> & -> & ->) | Hd1];
      [| destruct e1, f1, g1, h1; try (now contradiction Hd1) ]);
    (destruct Hd2 as [(-> & -> & -> & ->) | Hd2];
      [| destruct e2, f2, g2, h2; try (now contradiction Hd2) ]);
    destruct p1, p2; reflexivity. }
  split; [exact Hl |].
  unfold format_comparison_table. now rewrite Hl.
Qed.

End Table.

(** ** Computations that spawn nothing *)

Section Quiet.

Lemma spawned_app (a b : list event) : spawned (a ++ b) = spawned a ++ spawned b.
Proof. apply flat_map_app. Qed.

Lemma no_report_app (a b : list event) : no_report a -> no_report b -> no_report (a ++ b).
Proof. unfold no_report. intros Ha Hb. now rewrite filter_app, Ha, Hb. Qed.

Lemma no_report_app_inv (a b : list event) :
  no_report (a ++ b) -> no_report a /\ no_report b.
Proof.
  unfold no_report. rewrite filter_app. intros H.
  now apply app_eq_nil in H.
Qed.

Lemma quiet_ret {A} (a : A) : quiet (ret a).
Proof. intros env n. exists (Ok a), []. now repeat split. Qed.

Lemma quiet_raise {A} (e : exn) : quiet (@raise A e).
Proof. intros env n. exists (Raise e), []. now repeat split. Qed.

Lemma quiet_lift {A} (r : result A) : quiet (lift r).
Proof. intros env n. exists r, []. now repeat split. Qed.

Lemma quiet_ask : quiet ask.
Proof. intros env n. exists (Ok env), []. now repeat split. Qed.

Lemma quiet_log (msg : pystr) (verbose : bool) : quiet (log msg verbose).
Proof.
  intros env n. destruct verbose.
  - exists (Ok tt), [Log msg]. now repeat split.
  - exists (Ok tt), []. now repeat split.
Qed.

Lemma quiet_bind {A B} (m : M A) (f : A -> M B) :
  quiet m -> (forall a, quiet (f a)) -> quiet (bind m f).
Proof.
  intros Hm Hf env n. destruct (Hm env n) as (r & ev & E & Hs & Ht).
  unfold bind. rewrite E. destruct r as [a | e].
  - destruct (Hf a env n) as (r' & ev' & E' & Hs' & Ht'). rewrite E'.
    exists r', (ev ++ ev'). split; [reflexivity |]. split.
    + now rewrite spawned_app, Hs, Hs'.
    + now apply no_report_app.
  - exists (Raise e), ev. now repeat split.
Qed.

Ltac quiet_step :=
  first [ apply quiet_ret | apply quiet_raise | apply quiet_lift | apply quiet_ask
        | apply quiet_log | apply quiet_bind; [| intros ?]
        | match goal with
          | |- quiet (match ?x with _ => _ end) => destruct x
          | |- quiet (let '_ := ?x in _) => destruct x
          end ].

Lemma quiet_parse_names (names : list pystr) (verbose : bool) :
  forall st, quiet (parse_names names verbose st).
Proof.
  induction names as [| name rest IH]; intros st; cbn [parse_names].
  - apply quiet_ret.
  - repeat quiet_step. apply IH.
Qed.

Lemma quiet_parse_payload (payload_args : list pystr) (verbose : bool) :
  quiet (parse_payload payload_args verbose).
Proof.
  unfold parse_payload.
  repeat first [ apply quiet_parse_names | quiet_step ].
Qed.

End Quiet.

(** ** Inversion of computations

    What a computation returned tells how it ran: each lemma below turns
    an equation on the outcome of a primitive into facts on its parts,
    and the tactics apply them along a whole definition. *)

Section Inversion.

Context {A B : Type}.

Lemma bind_inv (m : M A) (f : A -> M B) (env : environ) (n n' : nat)
  (r : result B) (ev : list event) :
  bind m f env n = (r, ev, n') ->
  (exists a ev1 n1 ev2,
      m env n = (Ok a, ev1, n1) /\ f a env n1 = (r, ev2, n') /\ ev = ev1 ++ ev2) \/
  (exists e, m env n = (Raise e, ev, n') /\ r = Raise e).
Proof.
  unfold bind. destruct (m env n) as [[[a | e] ev1] n1].
  - destruct (f a env n1) as [[r2 ev2] n2] eqn:E. intros [= <- <- <-].
    left. exists a, ev1, n1, ev2. now repeat split.
  - intros [= <- <- <-]. right. now exists e.
Qed.

Lemma ret_inv (a : A) (env : environ) (n n' : nat) (r : result A) (ev : list event) :
  ret a env n = (r, ev, n') -> r = Ok a /\ ev = [] /\ n' = n.
Proof. now intros [= <- <- <-]. Qed.

Lemma raise_inv (e : exn) (env : environ) (n n' : nat) (r : result A)
  (ev : list event) :
  raise e env n = (r, ev, n') -> r = Raise e /\ ev = [] /\ n' = n.
Proof. now intros [= <- <- <-]. Qed.

Lemma lift_inv (x : result A) (env : environ) (n n' : nat) (r : result A)
  (ev : list event) :
  lift x env n = (r, ev, n') -> x = r /\ ev = [] /\ n' = n.
Proof. now intros [= <- <- <-]. Qed.

End Inversion.

Lemma emit_inv (e : event) (env : environ) (n n' : nat) (r : result unit)
  (ev : list event) :
  emit e env n = (r, ev, n') -> r = Ok tt /\ ev = [e] /\ n' = n.
Proof. now intros [= <- <- <-]. Qed.

Lemma ask_inv (env : environ) (n n' : nat) (r : result environ) (ev : list event) :
  ask env n = (r, ev, n') -> r = Ok env /\ ev = [] /\ n' = n.
Proof. now intros [= <- <- <-]. Qed.

Lemma subprocess_run_inv (cmd : list pystr) (cwd : option path) (mode : spawn_mode)
  (env : environ) (n n' : nat) (r : result proc_result) (ev : list event) :
  subprocess_run cmd cwd mode env n = (r, ev, n') ->
  r = Ok (proc env n) /\ ev = [Spawn cmd cwd mode] /\ n' = S n.
Proof. now intros [= <- <- <-]. Qed.

Lemma parse_payload_inv (p : list pystr) (v : bool) (env : environ) (n n' : nat)
  (r : result (json * json)) (ev : list event) :
  parse_payload p v env n = (r, ev, n') ->
  spawned ev = [] /\ no_report ev /\ n' = n.
Proof.
  destruct (quiet_parse_payload p v env n) as (r0 & ev0 & E & Hs & Ht).
  rewrite E. now intros [= <- <- <-].
Qed.

(** Tidies the facts an inversion leaves: splits them, substitutes the
    variables they fix, closes the cases with clashing results and turns
    the tests on exit statuses into equations. *)
Ltac inv_clean :=
  repeat match goal with
         | H : _ /\ _ |- _ => destruct H
         | H : exists _, _ |- _ => destruct H
         | H : Ok _ = Ok _ |- _ => injection H as H
         | H : Raise _ = Raise _ |- _ => injection H as H
         | H : Ok _ = Raise _ |- _ => discriminate H
         | H : Raise _ = Ok _ |- _ => discriminate H
         | H : ?x = _ |- _ => is_var x; subst x
         | H : _ = ?x |- _ => is_var x; subst x
         | H : negb (_ =? 0) = false |- _ =>
             apply negb_false_iff in H; apply Z.eqb_eq in H
         | H : negb (_ =? 0) = true |- _ =>
             apply negb_true_iff in H; apply Z.eqb_neq in H
         end.

(** One step of inversion of a computation built from the primitives. *)
Ltac inv_prim :=
  match goal with
  | H : bind _ _ _ _ = (_, _, _) |- _ =>
      apply bind_inv in H;
      destruct H as [(? & ? & ? & ? & ? & H & ?) | (? & ? & ?)];
      [cbv beta zeta in H |]
  | H : ret _ _ _ = (_, _, _) |- _ => apply ret_inv in H
  | H : raise _ _ _ = (_, _, _) |- _ => apply raise_inv in H
  | H : lift _ _ _ = (_, _, _) |- _ => apply lift_inv in H
  | H : emit _ _ _ = (_, _, _) |- _ => apply emit_inv in H
  | H : ask _ _ = (_, _, _) |- _ => apply ask_inv in H
  | H : subprocess_run _ _ _ _ _ = (_, _, _) |- _ => apply subprocess_run_inv in H
  | H : log _ _ _ _ = (_, _, _) |- _ => unfold log in H; cbv iota in H
  | H : (if ?c then _ else _) _ _ = (_, _, _) |- _ =>
      destruct c eqn:?; cbv iota in H
  | H : (match ?x with _ => _ end) _ _ = (_, _, _) |- _ => destruct x eqn:?
  end.

(** Inverts as far as possible, [unfolding] opening or summarising the
    functions met on the way. *)
Ltac inv_with unfolding := inv_clean; repeat ((unfolding || inv_prim); inv_clean).

Ltac unfold_steps :=
  idtac;
  match goal with
  | H : run_command _ _ _ _ _ = (_, _, _) |- _ => unfold run_command in H
  | H : prep_files _ _ _ _ _ _ = (_, _, _) |- _ => unfold prep_files in H
  | H : checkout_branch _ _ _ _ _ = (_, _, _) |- _ => unfold checkout_branch in H
  | H : rebuild_client _ _ _ _ = (_, _, _) |- _ => unfold rebuild_client in H
  | H : run_benchmark _ _ _ _ _ _ _ _ = (_, _, _) |- _ => unfold run_benchmark in H
  end.

Ltac solve_facts :=
  unfold exit_status, no_report in *;
  repeat split; try eassumption; try reflexivity; try congruence.

(** ** The steps of one client *)

Lemma get_build_type_raises (c : pystr) (e : exn) :
  get_build_type c = Raise e -> e = unknown_client c.
Proof.
  unfold get_build_type.
  repeat match goal with |- context [if ?x then _ else _] => destruct x end;
    congruence.
Qed.

Lemma runner_cmd_known (env : environ) (c w b r t bt : pystr) :
  get_build_type c = Ok bt -> exists cmd, runner_cmd env c w b r t = Ok cmd.
Proof.
  unfold get_build_type, runner_cmd.
  repeat match goal with |- context [if ?x then _ else _] => destruct x end;
    try discriminate; eauto.
Qed.

Lemma prep_files_inv (a : args) (v : bool) (env : environ) (n n' : nat)
  (r : result unit) (ev : list event) :
  prep_files (tmp_name env) (bucket a) (region a) v env n = (r, ev, n') ->
  n' = S n /\ spawned ev = [prep_cmd env a] /\ no_report ev /\
  ((exit_status env n = 0 /\ r = Ok tt) \/
   (exit_status env n <> 0 /\ r = Raise (Exception "File preparation failed"))).
Proof.
  intros H. destruct v; inv_with unfold_steps;
    (repeat split; [reflexivity .. |]);
    first [ left; solve [solve_facts] | right; solve [solve_facts] ].
Qed.

Lemma checkout_branch_inv (repo branch : pystr) (v : bool) (env : environ)
  (n n' : nat) (r : result unit) (ev : list event) :
  checkout_branch repo branch v env n = (r, ev, n') ->
  no_report ev /\
  ((exit_status env n <> 0 /\
    r = Raise (Exception ("Git fetch failed in " ++ repo)) /\
    n' = S n /\ spawned ev = [["git" : pystr; "fetch" : pystr; "origin" : pystr]]) \/
   (exit_status env n = 0 /\
    n' = S (S n) /\
    spawned ev = [["git" : pystr; "fetch" : pystr; "origin" : pystr];
                  ["git" : pystr; "checkout" : pystr; branch]] /\
    ((exit_status env (S n) <> 0 /\
      r = Raise (Exception ("Git checkout failed for branch " ++ branch
                            ++ " in " ++ repo))) \/
     (exit_status env (S n) = 0 /\ r = Ok tt)))).
Proof.
  intros H. destruct v; inv_with unfold_steps;
    (split; [reflexivity |]);
    first [ left; solve [solve_facts]
          | right; repeat (split; [solve [solve_facts] |]);
            first [ left; solve [solve_facts] | right; solve [solve_facts] ] ].
Qed.

Lemma rebuild_client_inv (name : pystr) (v : bool) (env : environ)
  (n n' : nat) (r : result unit) (ev : list event) :
  rebuild_client name v env n = (r, ev, n') ->
  no_report ev /\
  ((get_build_type name = Raise (unknown_client name) /\
    r = Raise (unknown_client name) /\ n' = n /\ spawned ev = []) \/
   (exists build_type,
      get_build_type name = Ok build_type /\
      n' = S (S n) /\
      spawned ev = [clear_cmd env build_type; build_cmd env build_type] /\
      ((exit_status env (S n) <> 0 /\
        r = Raise (Exception ("Build failed for " ++ name)) /\
        exists pre mode, ev = pre ++ [Spawn (build_cmd env build_type) None mode]) \/
       (exit_status env (S n) = 0 /\ r = Ok tt)))).
Proof.
  intros H. destruct v; inv_with unfold_steps;
    (split; [reflexivity |]);
    try match goal with
        | H : get_build_type _ = Raise ?e |- _ =>
            pose proof (get_build_type_raises _ _ H); subst e
        end;
    first [ left; solve [solve_facts]
          | right; eexists; repeat (split; [solve [solve_facts] |]);
            first [ right; solve [solve_facts]
                  | left; repeat (split; [solve [solve_facts] |]);
                    match goal with
                    | |- exists pre mode, ?L = _ =>
                        exists (removelast L); eexists; reflexivity
                    end ] ].
Qed.

Lemma run_benchmark_inv (a : args) (name : pystr) (v : bool) (env : environ)
  (n n' : nat) (r : result pystr) (ev : list event) :
  run_benchmark name (tmp_name env) (bucket a) (region a) (throughput a) v env n
  = (r, ev, n') ->
  no_report ev /\
  ((exists e, runner_cmd env name (tmp_name env) (bucket a) (region a) (throughput a)
              = Raise e /\ r = Raise e /\ n' = n /\ spawned ev = []) \/
   (n' = S n /\ spawned ev = [runner_of env a name] /\
    ((exit_status env n <> 0 /\
      r = Raise (Exception ("Benchmark failed for " ++ name))) \/
     (exit_status env n = 0 /\ r = Ok (stdout (proc env n)))))).
Proof.
  intros H. destruct v; inv_with unfold_steps;
    (split; [reflexivity |]);
    first [ left; eexists; solve [solve_facts]
          | right; unfold runner_of;
            match goal with H : runner_cmd _ _ _ _ _ _ = _ |- _ => rewrite H end;
            repeat (split; [solve [solve_facts] |]);
            first [ left; solve [solve_facts] | right; solve [solve_facts] ] ].
Qed.

(** The steps of a client seen through the lemmas above. *)
Ltac apply_step_specs a :=
  idtac;
  match goal with
  | H : checkout_branch _ _ _ _ _ = (_, _, _) |- _ =>
      apply checkout_branch_inv in H;
      destruct H as [? [(? & ? & ? & ?) | (? & ? & ? & [(? & ?) | (? & ?)])]]
  | H : rebuild_client _ _ _ _ = (_, _, _) |- _ =>
      apply rebuild_client_inv in H;
      destruct H as [? [(? & ? & ? & ?)
                       | (? & ? & ? & ? & [(? & ? & ? & ? & ?) | (? & ?)])]]
  | H : run_benchmark _ _ _ _ _ _ _ _ = (_, _, _) |- _ =>
      apply (run_benchmark_inv a) in H;
      destruct H as [? [(? & ? & ? & ? & ?) | (? & ? & [(? & ?) | (? & ?)])]]
  end.

(** The processes of a sequence of events whose parts are known. *)
Ltac spawned_norm :=
  repeat first [ match goal with
                 | H : spawned ?x = _ |- context [spawned ?x] => rewrite H
                 end
               | rewrite spawned_app ].

Ltac rewrite_build_types :=
  unfold plan, client_plan, build_type_of;
  repeat match goal with
         | H : get_build_type _ = _ |- _ => rewrite H
         end.

Ltac solve_no_report :=
  repeat first [ assumption | reflexivity | apply no_report_app ].

Ltac norm_index :=
  rewrite ?Nat.add_succ_r, ?Nat.add_0_r in *; unfold exit_status in *.

Ltac norm_trace :=
  repeat match goal with
         | H : no_report (_ ++ _) |- _ => apply no_report_app_inv in H; destruct H
         end;
  rewrite ?(@app_nil_l event), ?(@app_nil_r event), ?(@app_assoc event).

Ltac split_all :=
  repeat match goal with
         | |- _ /\ _ => split
         | |- exists _, _ => eexists
         end.

Ltac solve_leaf :=
  first [ eassumption | reflexivity | congruence | solve [solve_no_report] ].

(** Proves that the steps of a client stopped at [st]. *)
Ltac try_stage st :=
  solve [ exists st; cbn [stage_spawns stage_facts];
          split; [lia |];
          split; [spawned_norm; rewrite_build_types; reflexivity |];
          norm_index; norm_trace; split_all; solve_leaf ].

Ltac find_stage :=
  try match goal with
      | |- context [parse_metrics ?o] => destruct (parse_metrics o) eqn:?
      end;
  first [ try_stage FetchFailed | try_stage CheckoutFailed | try_stage UnknownClient
        | try_stage BuildFailed | try_stage RunFailed | try_stage BadMetrics
        | try_stage Done ].

(** The steps of a client stop at one of the stages, having spawned the
    processes of the plan up to there. *)
Lemma run_client_inv (idx name branch repo : pystr) (a : args) (v : bool)
  (env : environ) (n n' : nat) (r : result metrics) (ev : list event) :
  run_client idx name branch repo (tmp_name env) a v env n = (r, ev, n') ->
  exists st,
    n' = (n + stage_spawns st)%nat /\
    spawned ev = firstn (stage_spawns st) (client_plan env a name branch) /\
    no_report ev /\
    stage_facts env name repo branch n st r ev.
Proof.
  intros H. unfold run_client in H. destruct v.
  - inv_with ltac:(apply_step_specs a).
    all: try match goal with
             | H1 : get_build_type ?c = Ok _,
               H2 : runner_cmd _ ?c _ _ _ _ = Raise _ |- _ =>
                 destruct (runner_cmd_known env c (tmp_name env) (bucket a) (region a)
                             (throughput a) _ H1); congruence
             end.
    all: find_stage.
  - inv_with ltac:(apply_step_specs a).
    all: try match goal with
             | H1 : get_build_type ?c = Ok _,
               H2 : runner_cmd _ ?c _ _ _ _ = Raise _ |- _ =>
                 destruct (runner_cmd_known env c (tmp_name env) (bucket a) (region a)
                             (throughput a) _ H1); congruence
             end.
    all: find_stage.
Qed.


(** ** The driver *)

Ltac apply_main_specs a :=
  idtac;
  match goal with
  | H : parse_payload _ _ _ _ = (_, _, _) |- _ => apply parse_payload_inv in H
  | H : prep_files _ _ _ _ _ _ = (_, _, _) |- _ =>
      apply (prep_files_inv a) in H;
      destruct H as (? & ? & ? & [(? & ?) | (? & ?)])
  | H : run_client _ _ _ _ _ _ _ _ _ = (_, _, _) |- _ =>
      apply run_client_inv in H; destruct H as (? & ? & ? & ? & ?)
  end.

Ltac split_stages :=
  repeat match goal with
         | st : stage |- _ => destruct st
         end;
  cbn [stage_facts stage_spawns Nat.add] in *; inv_clean.

Lemma app_two {A} (l : list A) (x y : A) : (l ++ [x]) ++ [y] = l ++ [x; y].
Proof. now rewrite <- app_assoc. Qed.

Ltac try_stop s :=
  solve [ exists s; cbn [stop_spawns stop_facts stage_facts stage_spawns Nat.add];
          split; [spawned_norm; rewrite_build_types; reflexivity |];
          norm_index; norm_trace; split_all; solve_leaf ].

Ltac try_completed :=
  solve [ exists Completed;
          cbn [stop_spawns stop_facts stage_facts stage_spawns Nat.add];
          split; [spawned_norm; rewrite_build_types; reflexivity |];
          norm_index; norm_trace; rewrite app_two; split_all; solve_leaf ].

Ltac find_stop :=
  cbn [fst snd];
  first [ try_stop ParseFailed | try_stop PrepFailed
        | try_stop (Client1 FetchFailed) | try_stop (Client1 CheckoutFailed)
        | try_stop (Client1 UnknownClient) | try_stop (Client1 BuildFailed)
        | try_stop (Client1 RunFailed) | try_stop (Client1 BadMetrics)
        | try_stop (Client2 FetchFailed) | try_stop (Client2 CheckoutFailed)
        | try_stop (Client2 UnknownClient) | try_stop (Client2 BuildFailed)
        | try_stop (Client2 RunFailed) | try_stop (Client2 BadMetrics)
        | try_stop TableFailed | try_completed ].

Section Driver.
Variable format_2f : Q -> pystr.

(** Every comparison stops at one of the stops, having spawned the
    processes of the plan up to there and reported as [stop_facts] says. *)
Lemma main_outcome (a : args) (env : environ) :
  exists s : stop,
    spawned (snd (main format_2f a env))
    = firstn (stop_spawns s) (plan env a) /\
    stop_facts env a s (fst (main format_2f a env)) (snd (main format_2f a env)).
Proof.
  unfold main.
  destruct (main_try format_2f a (str_eqb (lower (verbose a)) "true") env 0%nat)
    as [[r tr] n'] eqn:E.
  unfold main_try in E.
  destruct (str_eqb (lower (verbose a)) "true").
  - inv_with ltac:(apply_main_specs a); split_stages; find_stop.
  - inv_with ltac:(apply_main_specs a); split_stages; find_stop.
Qed.

Lemma main_pair (a : args) (env : environ) (code : Z) (tr : list event) :
  fst (main format_2f a env) = code -> snd (main format_2f a env) = tr ->
  main format_2f a env = (code, tr).
Proof. destruct (main format_2f a env). cbn. now intros -> ->. Qed.

Lemma spawned_snoc_spawn (pre : list event) (cmd : list pystr) (cwd : option path)
  (mode : spawn_mode) :
  spawned (pre ++ [Spawn cmd cwd mode]) = spawned pre ++ [cmd].
Proof. now rewrite spawned_app. Qed.

Lemma spawned_snoc_error (pre : list event) (e : exn) :
  spawned (pre ++ [ErrorLine e]) = spawned pre.
Proof. rewrite spawned_app. apply app_nil_r. Qed.

(** C5. When the comparison gets as far as its tenth process, which is
    the build of client 2, and this process exits with a status other
    than 0: the run ends with the exit code 1; its last two events are
    the spawn of that build and the error line [Build failed for] the
    client, which is the only error line; no table is printed; the
    processes spawned are the first ten of the plan, so the runner of
    client 2, the eleventh, is never spawned. *)
Theorem rebuild_failure_of_client2 :
  forall (a : args) (env : environ),
    (10 <= length (spawned (snd (main format_2f a env))))%nat ->
    exit_status env 9 <> 0 ->
    exists build_type pre mode,
      get_build_type (client2 a) = Ok build_type /\
      main format_2f a env
      = (1, pre ++ [Spawn (build_cmd env build_type) None mode;
                    ErrorLine (Exception ("Build failed for " ++ client2 a))]) /\
      no_report pre /\
      spawned pre = firstn 9 (plan env a) /\
      spawned (snd (main format_2f a env)) = firstn 10 (plan env a).
Proof.
  intros a env Hlen Hexit.
  destruct (main_outcome a env) as (s & Hsp & Hf).
  rewrite Hsp, length_firstn in Hlen.
  change (length (plan env a)) with 11%nat in Hlen.
  destruct s as [| | st | st | |]; try destruct st;
    cbn [stop_spawns stop_facts stage_spawns stage_facts Nat.add] in *;
    try lia.
  - destruct Hf as (Hcode & _ & _ & pre & e & Htr & Hpre & _ & _ & _ & He
                    & bt & pre' & mode & Hbt & Hpre').
    subst pre. exists bt, pre', mode.
    apply no_report_app_inv in Hpre as [Hpre _].
    rewrite Htr, spawned_snoc_error, spawned_snoc_spawn in Hsp.
    assert (Hplan : firstn 10 (plan env a)
                    = firstn 9 (plan env a) ++ [build_cmd env bt]).
    { unfold plan, client_plan, build_type_of. now rewrite Hbt. }
    rewrite Hplan in Hsp. apply app_inj_tail in Hsp as [Hsp _].
    split; [exact Hbt |]. split.
    + apply main_pair; [exact Hcode |].
      rewrite Htr. injection He as ->. now rewrite <- app_assoc.
    + split; [exact Hpre |]. split; [exact Hsp |].
      rewrite Htr, spawned_snoc_error, spawned_snoc_spawn, Hsp. now rewrite Hplan.
  - destruct Hf as (_ & _ & _ & pre & e & _ & _ & _ & _ & H9 & _). contradiction.
  - destruct Hf as (_ & _ & _ & pre & e & _ & _ & _ & _ & H9 & _). contradiction.
  - destruct Hf as (_ & _ & _ & pre & e & _ & _ & _ & _ & _ & _ & (m & _ & Hm) & _).
    discriminate.
  - destruct Hf as (_ & _ & _ & (m & ev & _ & _ & H9 & _) & _). contradiction.
  - destruct Hf as (_ & _ & _ & (m & ev & _ & _ & H9 & _) & _). contradiction.
Qed.


(** C4, amended. A client name that is not known makes the comparison
    fail with the exit code 1 and one error line, after no table, but not
    before any process: the processes spawned are the first [k] of the
    plan, with [k] at most 3 when the name is that of client 1 (file
    preparation, fetch and checkout) and at most 8 when it is that of
    client 2 (the steps of client 1 and its own fetch and checkout), so
    that no clear, build or run of that client is ever spawned; and when
    all of these were spawned and the checkout exited with status 0, the
    error is the unknown-client error. *)
Theorem unknown_client_fails_in_rebuild :
  forall (a : args) (env : environ),
    (get_build_type (client1 a) = Raise (unknown_client (client1 a)) ->
     exists k pre e,
       (k <= 3)%nat /\
       main format_2f a env = (1, pre ++ [ErrorLine e]) /\
       no_report pre /\
       spawned pre = firstn k (plan env a) /\
       (k = 3%nat -> exit_status env 2 = 0 -> e = unknown_client (client1 a))) /\
    (get_build_type (client2 a) = Raise (unknown_client (client2 a)) ->
     exists k pre e,
       (k <= 8)%nat /\
       main format_2f a env = (1, pre ++ [ErrorLine e]) /\
       no_report pre /\
       spawned pre = firstn k (plan env a) /\
       (k = 8%nat -> exit_status env 7 = 0 -> e = unknown_client (client2 a))).
Proof.
  intros a env.
  destruct (main_outcome a env) as (s & Hsp & Hf).
  split; intros Hc.
  - destruct s as [| | st | st | |]; try destruct st;
      cbn [stop_spawns stop_facts stage_spawns stage_facts Nat.add] in *;
      repeat match goal with
             | H : _ /\ _ |- _ => destruct H
             | H : exists _, _ |- _ => destruct H
             end;
      try congruence;
      match goal with
      | Hc : fst _ = 1, Ht : snd _ = ?pre ++ [ErrorLine ?e] |- _ =>
          rewrite Ht, spawned_snoc_error in Hsp;
          eexists; exists pre, e;
          (split; [| split; [apply main_pair; eassumption |
                             split; [assumption | split; [exact Hsp |]]]])
      end; try lia; intros; unfold exit_status in *; try lia; congruence.
  - destruct s as [| | st | st | |]; try destruct st;
      cbn [stop_spawns stop_facts stage_spawns stage_facts Nat.add] in *;
      repeat match goal with
             | H : _ /\ _ |- _ => destruct H
             | H : exists _, _ |- _ => destruct H
             end;
      try congruence;
      match goal with
      | Hc : fst _ = 1, Ht : snd _ = ?pre ++ [ErrorLine ?e] |- _ =>
          rewrite Ht, spawned_snoc_error in Hsp;
          eexists; exists pre, e;
          (split; [| split; [apply main_pair; eassumption |
                             split; [assumption | split; [exact Hsp |]]]])
      end; try lia; intros; unfold exit_status in *; try lia; congruence.
Qed.

End Driver.

(** C4, as stated, fails: with the unknown name [no-such-client] for
    client 1 the unknown-client error is the last event of the run, after
    three processes were spawned: the file preparation, [git fetch] and
    [git checkout]. *)
Lemma unknown_client_after_three_processes :
  get_build_type (client1 unknown_client_args)
  = Raise (unknown_client "no-such-client") /\
  spawned (snd (main sample_format_2f unknown_client_args example_env))
  = [["python3" : pystr; "/repo/scripts/py/prep-s3-files.py" : pystr;
      "--bucket" : pystr; "bucket" : pystr; "--region" : pystr; "us-west-2" : pystr;
      "--files-dir" : pystr; "/repo/files" : pystr;
      "--workloads" : pystr; "/tmp/workload.json" : pystr];
     ["git" : pystr; "fetch" : pystr; "origin" : pystr];
     ["git" : pystr; "checkout" : pystr; "main" : pystr]] /\
  last (snd (main sample_format_2f unknown_client_args example_env)) (Log [])
  = ErrorLine (unknown_client "no-such-client").
Proof. repeat split; vm_compute; reflexivity. Qed.

Lemma unknown_client_fails_in_rebuild_witness :
  (exists k pre e,
     (k <= 3)%nat /\
     main sample_format_2f unknown_client_args example_env
     = (1, pre ++ [ErrorLine e]) /\
     no_report pre /\
     spawned pre = firstn k (plan example_env unknown_client_args) /\
     (k = 3%nat -> exit_status example_env 2 = 0 ->
      e = unknown_client (client1 unknown_client_args))) /\
  (exists k pre e,
     (k <= 8)%nat /\
     main sample_format_2f unknown_client2_args example_env
     = (1, pre ++ [ErrorLine e]) /\
     no_report pre /\
     spawned pre = firstn k (plan example_env unknown_client2_args) /\
     (k = 8%nat -> exit_status example_env 7 = 0 ->
      e = unknown_client (client2 unknown_client2_args))).
Proof.
  split.
  - apply (proj1 (unknown_client_fails_in_rebuild sample_format_2f
                    unknown_client_args example_env)).
    reflexivity.
  - apply (proj2 (unknown_client_fails_in_rebuild sample_format_2f
                    unknown_client2_args example_env)).
    reflexivity.
Defined.

Lemma rebuild_failure_of_client2_witness :
  exists build_type pre mode,
    get_build_type (client2 known_clients_args) = Ok build_type /\
    main sample_format_2f known_clients_args build2_fails_env
    = (1, pre ++ [Spawn (build_cmd build2_fails_env build_type) None mode;
                  ErrorLine (Exception ("Build failed for "
                                        ++ client2 known_clients_args))]) /\
    no_report pre /\
    spawned pre = firstn 9 (plan build2_fails_env known_clients_args) /\
    spawned (snd (main sample_format_2f known_clients_args build2_fails_env))
    = firstn 10 (plan build2_fails_env known_clients_args).
Proof.
  apply (rebuild_failure_of_client2 sample_format_2f known_clients_args
           build2_fails_env).
  - vm_compute. lia.
  - vm_compute. discriminate.
Defined.

(** The table of [sample_metrics] against the empty metric set. *)
Lemma table_sections_witness :
  exists lines,
    table_lines sample_format_2f "crt-c" "main" sample_metrics
                "crt-java" "main" empty_metrics = Ok lines /\
    format_comparison_table sample_format_2f "crt-c" "main" sample_metrics
                            "crt-java" "main" empty_metrics
    = Ok (join_lines lines).
Proof.
  eexists.
  apply (table_sections sample_format_2f "crt-c" "main" "crt-java" "main"
           sample_metrics empty_metrics).
  - split; [right; discriminate | left; repeat split].
  - split; left; repeat split.
Defined.

(** ** More on the size parser and on workload names *)

Section SizeOutcome.

Lemma digit_prefix (s : pystr) :
  exists ds rest,
    s = ds ++ rest /\ forallb is_digit ds = true /\
    match rest with [] => true | c :: _ => negb (is_digit c) end = true.
Proof.
  induction s as [| c s (ds & rest & E & Hd & Hr)].
  - exists [], []. now repeat split.
  - destruct (is_digit c) eqn:Hc.
    + exists (c :: ds), rest. subst s. cbn [forallb app]. now rewrite Hc, Hd.
    + exists [], (c :: s). cbn. now rewrite Hc.
Qed.

Lemma plus_cls_none {R} (p : ascii -> bool) (s : pystr) (k : pystr -> option R) :
  match s with [] => true | c :: _ => negb (p c) end = true ->
  plus_cls p s k = None.
Proof.
  destruct s as [| c s]; [reflexivity |]. cbn [plus_cls].
  intros H. apply negb_true_iff in H. now rewrite H.
Qed.

(** A greedy [+] gives nothing back when the rest of the pattern refuses
    every text that starts in the class. *)
Lemma plus_cls_commit {R} (p : ascii -> bool) (run rest : pystr)
  (k : pystr -> option R) :
  run <> [] -> forallb p run = true ->
  match rest with [] => true | c :: _ => negb (p c) end = true ->
  (forall c t, p c = true -> k (c :: t) = None) ->
  plus_cls p (run ++ rest) k = k rest.
Proof.
  intros Hne Hrun Hrest Hk. induction run as [| c run IH]; [congruence |].
  cbn [forallb] in Hrun. apply andb_prop in Hrun as [Hc Hrun].
  cbn [app plus_cls]. rewrite Hc.
  destruct run as [| c' run'].
  - cbn [app]. now rewrite (plus_cls_none p rest k Hrest).
  - rewrite IH by (discriminate || exact Hrun).
    cbn [forallb] in Hrun. apply andb_prop in Hrun as [Hc' _].
    destruct (k rest) eqn:E; [reflexivity |].
    cbn [app]. now apply Hk.
Qed.

Lemma strip_prefix_inv (p : pystr) : forall s r, strip_prefix p s = Some r -> s = p ++ r.
Proof.
  induction p as [| x p IH]; intros s r H.
  - cbn in H. now injection H as ->.
  - destruct s as [| y s]; [discriminate |]. cbn [strip_prefix] in H.
    unfold chr_eqb in H. destruct (Ascii.eqb_spec x y) as [-> |]; [| discriminate].
    cbn [app]. f_equal. now apply IH.
Qed.

Lemma strip_prefix_app (p r : pystr) : strip_prefix p (p ++ r) = Some r.
Proof.
  induction p as [| x p IH]; [reflexivity |].
  cbn [app strip_prefix]. unfold chr_eqb. now rewrite Ascii.eqb_refl.
Qed.

Lemma strip_prefix_digit (p : pystr) (c : ascii) (t : pystr) :
  is_digit c = true ->
  match p with x :: _ => negb (is_digit x) | [] => false end = true ->
  strip_prefix p (c :: t) = None.
Proof.
  intros Hc Hp. destruct p as [| x p]; [discriminate |].
  apply negb_true_iff in Hp. cbn [strip_prefix].
  assert (E : chr_eqb x c = false).
  { unfold chr_eqb. destruct (Ascii.eqb_spec x c) as [-> |]; [congruence | reflexivity]. }
  now rewrite E.
Qed.

Lemma at_end_inv (s : pystr) : at_end s = true -> s = [] \/ s = [newline].
Proof.
  destruct s as [| c [| d s]]; cbn; intros H; try discriminate; [now left |].
  right. unfold chr_eqb in H. apply Ascii.eqb_eq in H. now subst.
Qed.

Lemma size_token_intro (ds u tail : pystr) (mult : Z) :
  ds <> [] -> forallb is_digit ds = true -> In (u, mult) size_units ->
  tail = [] \/ tail = [newline] ->
  size_token (ds ++ u ++ tail) ds u mult.
Proof.
  intros Hne Hd Hu Ht. repeat split; try assumption.
  destruct Ht as [-> | ->]; [left; now rewrite app_nil_r | now right].
Qed.

(** One unit of the alternation: the text starts with it or not. *)
Ltac unit_case H ds u mult :=
  match type of H with
  | context [strip_prefix (lit u) ?rest] =>
      let E := fresh "E" in
      let tail := fresh "tail" in
      let Ht := fresh "Ht" in
      destruct (strip_prefix (lit u) rest) as [tail |] eqn:E;
      [ apply strip_prefix_inv in E; subst rest;
        destruct (at_end tail) eqn:Ht;
        [ apply at_end_inv in Ht; injection H as <-;
          exists ds, (lit u), mult; split;
          [ apply size_token_intro; try assumption; cbn; tauto
          | destruct Ht; subst tail; reflexivity ]
        | try (cbn in H; discriminate H) ]
      | ]
  end.

(** What the pattern of sizes matches: digits, a unit, and nothing more
    than a line feed. *)
Lemma size_pattern_inv (s : pystr) (caps : list pystr) :
  re_match size_pattern s = Some caps ->
  exists ds u mult, size_token s ds u mult /\ caps = [ds; u].
Proof.
  destruct (digit_prefix s) as (ds & rest & -> & Hd & Hr).
  unfold re_match, size_pattern. cbn [rmatch].
  destruct ds as [| d ds'].
  - cbn [app]. now rewrite plus_cls_none.
  - rewrite plus_cls_commit; try assumption; try discriminate.
    2:{ intros c t Hc.
        repeat (rewrite strip_prefix_digit; [| exact Hc | reflexivity]).
        reflexivity. }
    set (ds := d :: ds') in *.
    assert (Hne : ds <> []) by discriminate.
    rewrite capture_prefix. cbn [app]. clear Hr.
    intros H.
    unit_case H ds "KiB" 1024.
    unit_case H ds "MiB" (1024 * 1024).
    unit_case H ds "GiB" (1024 * 1024 * 1024).
    unit_case H ds "bytes" 1.
    { cbn in H. destruct tail as [| c [| c' t]]; discriminate H. }
    unit_case H ds "byte" 1.
    discriminate.
Qed.

(** The pattern of sizes matches every size token. *)
Lemma size_pattern_token (s ds u : pystr) (mult : Z) :
  size_token s ds u mult -> re_match size_pattern s = Some [ds; u].
Proof.
  intros (Hne & Hd & Hu & [-> | ->]).
  - now apply (size_pattern_matches ds u mult).
  - unfold re_match, size_pattern. cbn [rmatch].
    rewrite plus_cls_commit; try assumption.
    + rewrite capture_prefix. cbn [size_units In] in Hu.
      repeat (destruct Hu as [[= <- <-] | Hu]; [reflexivity |]). contradiction.
    + cbn [size_units In] in Hu.
      repeat (destruct Hu as [[= <- <-] | Hu]; [reflexivity |]). contradiction.
    + intros c t Hc.
      repeat (rewrite strip_prefix_digit; [| exact Hc | reflexivity]).
      reflexivity.
Qed.

Lemma size_of_caps (ds u : pystr) (mult : Z) :
  ds <> [] -> forallb is_digit ds = true -> In (u, mult) size_units ->
  rbind (py_int (group [ds; u] 1)) (fun size =>
      let unit := group [ds; u] 2 in
      let size :=
        if str_eqb unit "KiB" then size * 1024
        else if str_eqb unit "MiB" then size * (1024 * 1024)
        else if str_eqb unit "GiB" then size * (1024 * 1024 * 1024)
        else size in
      Ok size) = Ok (nat_of_digits ds * mult).
Proof.
  intros Hne Hd Hu.
  change (group [ds; u] 1) with ds. change (group [ds; u] 2) with u.
  rewrite (py_int_digits ds Hne Hd). cbn [rbind].
  cbn [size_units In] in Hu.
  repeat (destruct Hu as [[= <- <-] | Hu]; [cbn; f_equal; lia |]). contradiction.
Qed.

Lemma size_from_str_cases :
  forall s : pystr,
    (exists ds u mult,
        size_token s ds u mult /\ size_from_str s = Ok (nat_of_digits ds * mult)) \/
    ((forall ds u mult, ~ size_token s ds u mult) /\
     size_from_str s = Raise (illegal_size s)).
Proof.
  intros s. unfold size_from_str.
  destruct (re_match size_pattern s) as [caps |] eqn:E.
  - left. apply size_pattern_inv in E as (ds & u & mult & Ht & ->).
    exists ds, u, mult. split; [exact Ht |].
    destruct Ht as (Hne & Hd & Hu & _). now apply size_of_caps.
  - right. split; [| reflexivity].
    intros ds u mult Ht. apply size_pattern_token in Ht. congruence.
Qed.


Lemma digits_fold_nonneg (s : pystr) :
  forall acc, forallb is_digit s = true -> 0 <= acc ->
    0 <= fold_left (fun a c => 10 * a + digit_val c) s acc.
Proof.
  induction s as [| c s IH]; intros acc Hd Hacc; [exact Hacc |].
  cbn [forallb] in Hd. apply andb_prop in Hd as [Hc Hs].
  cbn [fold_left]. apply IH; [exact Hs |].
  unfold is_digit in Hc. apply andb_prop in Hc as [H1 H2].
  apply Z.leb_le in H1, H2. unfold digit_val. lia.
Qed.

Lemma nat_of_digits_nonneg (s : pystr) :
  forallb is_digit s = true -> 0 <= nat_of_digits s.
Proof. intros H. apply digits_fold_nonneg; [exact H | lia]. Qed.

Lemma size_from_str_nonneg (s : pystr) (v : Z) : size_from_str s = Ok v -> 0 <= v.
Proof.
  intros H.
  destruct (size_from_str_cases s) as [(ds & u & mult & (_ & Hd & Hu & _) & E) | [_ E]];
    [| congruence].
  rewrite E in H. injection H as <-.
  pose proof (nat_of_digits_nonneg ds Hd).
  cbn [size_units In] in Hu.
  repeat (destruct Hu as [[= <- <-] | Hu]; [lia |]). contradiction.
Qed.

End SizeOutcome.

Section NameShapes.

Lemma split_nonempty (c : ascii) (s : pystr) : split c s <> [].
Proof.
  destruct s as [| x s]; cbn [split]; [discriminate |].
  destruct (chr_eqb x c); [discriminate |]. destruct (split c s); discriminate.
Qed.





Lemma replace_fuel_suffix (c : ascii) (old : pystr) (fuel : nat) :
  forall s, no_char c s = true -> (length s < fuel)%nat ->
    replace_fuel fuel (c :: old) [] (s ++ c :: old) = s.
Proof.
  induction fuel as [| fuel IH]; intros s Hs Hf; [lia |].
  destruct s as [| x s].
  - cbn [app]. change (replace_fuel (S fuel) (c :: old) [] (c :: old))
      with (match strip_prefix (c :: old) (c :: old) with
            | Some rest => [] ++ replace_fuel fuel (c :: old) [] rest
            | None => c :: replace_fuel fuel (c :: old) [] old
            end).
    replace (strip_prefix (c :: old) (c :: old)) with (Some (@nil ascii)).
    + destruct fuel; reflexivity.
    + symmetry. rewrite <- (app_nil_r (c :: old)) at 2. apply strip_prefix_app.
  - cbn [no_char forallb] in Hs. apply andb_prop in Hs as [Hx Hs].
    apply negb_true_iff in Hx. cbn [length] in Hf.
    cbn [app replace_fuel strip_prefix]. unfold chr_eqb in *.
    rewrite Ascii.eqb_sym, Hx. f_equal. apply IH; [exact Hs | lia].
Qed.

Lemma replace_suffix (c : ascii) (old s : pystr) :
  no_char c s = true -> replace (c :: old) [] (s ++ c :: old) = s.
Proof.
  intros Hs. apply replace_fuel_suffix; [exact Hs |]. rewrite length_app. cbn [length]. lia.
Qed.

(** X2. The extension [.json] of a name is optional: a name without a dot
    is parsed the same with the extension and without it. *)
Theorem json_extension_is_optional :
  forall name : pystr,
    no_char "." name = true ->
    parse_workload_name (name ++ ".json") = parse_workload_name name.
Proof.
  intros name Hdot. unfold parse_workload_name.
  change (lit ".json") with ("."%char :: lit "json"). change (lit "") with (@nil ascii).
  now rewrite (replace_suffix "." (lit "json") name Hdot),
              (replace_absent "." (lit "json") [] name Hdot).
Qed.

Lemma json_extension_is_optional_witness :
  parse_workload_name ("download-5GiB-2x-ram" ++ ".json")
  = parse_workload_name "download-5GiB-2x-ram".
Proof. apply (json_extension_is_optional "download-5GiB-2x-ram"). reflexivity. Defined.

End NameShapes.

Section Names.










Lemma expand_tasks_length (action fs : pystr) (n file_size : Z) :
  length (expand_tasks action fs n file_size) = Z.to_nat n.
Proof. unfold expand_tasks, range. now rewrite !length_map, length_seq. Qed.



Lemma parse_workload_name_action (name action fs : pystr) (n : Z) (fod : bool) :
  parse_workload_name name = Ok (action, fs, n, fod) ->
  action = "upload" \/ action = "download".
Proof.
  unfold parse_workload_name.
  destruct (endswith (replace ".json" "" name) "-ram");
    (destruct (_ <? 3)%nat; [discriminate |]);
    (destruct (str_eqb _ "upload") eqn:E1;
     [| destruct (str_eqb _ "download") eqn:E2; [| discriminate]]);
    cbn [orb negb];
    (destruct (negb (endswith _ "x")); [discriminate |]);
    (destruct (py_int _); cbn [rbind]; [| discriminate]);
    intros [= <- _ _ _];
    first [ left; now apply str_eqb_eq | right; now apply str_eqb_eq ].
Qed.

(** X5. Every task of an expansion carries the action of the name, which
    is [upload] or [download], and the size of the name in bytes, which is
    not negative; its key starts with the common prefix; and there are as
    many tasks as the count says, none when the count is not positive. *)
Theorem expansion_invariants :
  forall (name : pystr) (tasks : list task) (fod : bool),
    generate_tasks_from_workload_name name = Ok (tasks, fod) ->
    exists (act fs : pystr) (n file_size : Z),
      parse_workload_name name = Ok (act, fs, n, fod) /\
      size_from_str fs = Ok file_size /\
      (act = "upload" \/ act = "download") /\
      0 <= file_size /\
      length tasks = Z.to_nat n /\
      Forall (fun t => action t = act /\ size t = file_size /\
                       exists idx, key t = key_prefix act fs n ++ idx) tasks.
Proof.
  intros name tasks fod H. unfold generate_tasks_from_workload_name in H.
  destruct (parse_workload_name name) as [[[[act fs] n] f] |] eqn:Ep; [| discriminate].
  cbn [rbind] in H.
  destruct (size_from_str fs) as [file_size |] eqn:Es; [| discriminate].
  cbn [rbind] in H. injection H as <- <-.
  exists act, fs, n, file_size.
  split; [reflexivity |]. split; [exact Es |].
  split; [exact (parse_workload_name_action _ _ _ _ _ Ep) |].
  split; [exact (size_from_str_nonneg _ _ Es) |].
  split; [apply expand_tasks_length |].
  unfold expand_tasks. apply Forall_map. apply Forall_forall. intros i _.
  cbn [action size key]. split; [reflexivity |]. split; [reflexivity |].
  eexists. unfold key_prefix. rewrite <- !app_assoc. reflexivity.
Qed.

Lemma expansion_invariants_witness :
  exists (act fs : pystr) (n file_size : Z),
    parse_workload_name "download-2KiB-3x-ram" = Ok (act, fs, n, false) /\
    size_from_str fs = Ok file_size /\
    (act = "upload" \/ act = "download") /\
    0 <= file_size /\
    length (expand_tasks "download" "2KiB" 3 2048) = Z.to_nat n /\
    Forall (fun t => action t = act /\ size t = file_size /\
                     exists idx, key t = key_prefix act fs n ++ idx)
           (expand_tasks "download" "2KiB" 3 2048).
Proof.
  apply (expansion_invariants "download-2KiB-3x-ram"
           (expand_tasks "download" "2KiB" 3 2048) false).
  reflexivity.
Defined.

End Names.

(** ** More on the payload *)

Section Payload.

(** X6. A payload of one argument that ends in [.json] is always read as a
    file, also when the argument is a workload name with its extension:
    when the file does not exist the payload is refused. *)
Theorem single_json_argument_is_a_file :
  forall (name : pystr) (verbose : bool) (env : environ),
    file env (PathOf (name ++ ".json")) = NoFile ->
    value (parse_payload [name ++ ".json"] verbose) env
    = Raise (Exception ("Payload file not found: "
                        ++ path_str env (PathOf (name ++ ".json")))).
Proof.
  intros name verbose env Hfile.
  unfold value, parse_payload, bind, log, ask, raise, emit, ret.
  cbn [length Nat.eqb nth andb]. rewrite endswith_app_same, Hfile.
  destruct verbose; reflexivity.
Qed.

Lemma single_json_argument_is_a_file_witness :
  generate_tasks_from_workload_name "upload-1MiB-1x.json"
  = Ok ([mkTask "upload" "upload/1MiB-1x/1" 1048576], true) /\
  value (parse_payload ["upload-1MiB-1x" ++ ".json"] false) example_env
  = Raise (Exception "Payload file not found: upload-1MiB-1x.json").
Proof.
  split; [reflexivity |].
  apply (single_json_argument_is_a_file "upload-1MiB-1x" false example_env).
  reflexivity.
Defined.

Lemma parse_names_value (names : list pystr) (verbose : bool) (env : environ) :
  forall (st : list json * bool) (n : nat),
    fst (fst (parse_names names verbose st env n))
    = rbind (expand_all names) (fun '(tasks, fod) =>
        Ok (fst st ++ map task_json tasks, snd st && fod)).
Proof.
  induction names as [| name rest IH]; intros [ts f] n.
  - cbn. now rewrite app_nil_r, andb_true_r.
  - cbn [parse_names expand_all]. unfold bind, lift.
    destruct (log ("  Parsing: " ++ name) verbose env n) as [[[[] | e] ev] n1] eqn:El;
      [| unfold log in El; destruct verbose; discriminate].
    destruct (generate_tasks_from_workload_name name) as [[tasks fod] | e]; [| reflexivity].
    cbn [rbind].
    specialize (IH (fst (ts, f) ++ map task_json tasks, snd (ts, f) && fod) n1).
    destruct (parse_names rest verbose _ env n1) as [[r ev'] n2].
    cbn [fst snd] in *.
    destruct (expand_all rest) as [[more fods] |]; cbn [rbind] in *.
    + rewrite IH. now rewrite map_app, app_assoc, andb_assoc.
    + destruct r; [discriminate | exact IH].
Qed.

(** X7. A payload that is not a single [.json] argument is parsed name by
    name without looking at any file: its workload holds the tasks of the
    names in order and the conjunction of their flags, and the error of
    the first name that has one is raised. *)
Theorem payload_of_names :
  forall (names : list pystr) (verbose : bool) (env : environ),
    (length names =? 1)%nat && endswith (nth 0 names []) ".json" = false ->
    value (parse_payload names verbose) env
    = rbind (expand_all names) (fun '(tasks, fod) =>
        Ok (make_workload (JBool fod) (map task_json tasks), JBool fod)).
Proof.
  intros names verbose env.
  intros Hnames. unfold value, parse_payload. rewrite Hnames.
  unfold bind at 1.
  destruct (log "Parsing payload..." verbose env 0%nat) as [[[[] | e] ev] n1] eqn:El;
    [| unfold log in El; destruct verbose; discriminate].
  unfold bind at 1. unfold ask at 1. unfold bind at 1. unfold bind at 1.
  pose proof (parse_names_value names verbose env ([], true) n1) as Hv.
  destruct (parse_names names verbose ([], true) env n1) as [[r ev'] n2].
  cbn [fst snd app andb] in Hv. subst r.
  destruct (expand_all names) as [[tasks fod] |]; cbn [rbind]; [| reflexivity].
  unfold bind, log, ask, raise, emit, ret, lift. cbn.
  destruct verbose; reflexivity.
Qed.

Lemma payload_of_names_witness :
  value (parse_payload ["upload-1MiB-1x.json" : pystr; "download-1KiB-2x-ram" : pystr]
                       true) example_env
  = Ok (make_workload (JBool false)
          (map task_json [mkTask "upload" "upload/1MiB-1x/1" 1048576;
                          mkTask "download" "download/1KiB-2x/1" 1024;
                          mkTask "download" "download/1KiB-2x/2" 1024]),
        JBool false).
Proof.
  apply (payload_of_names ["upload-1MiB-1x.json" : pystr; "download-1KiB-2x-ram" : pystr]
           true example_env).
  reflexivity.
Defined.

(** X8. A JSON file that holds one object is returned as it is, with no
    field checked or filled in, provided it has tasks that can be counted
    and the field [filesOnDisk]; without this field the payload is
    refused with a [KeyError], although a default is read for it. *)
Theorem single_object_payload :
  forall (p : pystr) (d : list (pystr * json)) (ts : json) (n : Z)
         (verbose : bool) (env : environ),
    endswith p ".json" = true ->
    file env (PathOf p) = JsonFile (JObj d) ->
    lookup "tasks" d = Some ts -> py_len ts = Ok n ->
    value (parse_payload [p] verbose) env
    = match lookup "filesOnDisk" d with
      | Some fod => Ok (JObj d, fod)
      | None => Raise (KeyError "filesOnDisk")
      end.
Proof.
  intros p d ts n verbose env Hends Hfile Hts Hlen.
  unfold value, parse_payload, bind, log, ask, raise, emit, ret, lift, getitem.
  cbn [length Nat.eqb nth andb]. rewrite Hends, Hfile.
  destruct verbose; cbv iota beta; rewrite Hts; cbv iota beta; rewrite Hlen;
    destruct (lookup "filesOnDisk" d); reflexivity.
Qed.

Lemma single_object_payload_witness :
  value (parse_payload ["run.json" : pystr] false)
        (one_file_env "run.json" (JObj [("tasks" : pystr, JArr [JInt 1])]))
  = Raise (KeyError "filesOnDisk") /\
  value (parse_payload ["run.json" : pystr] false)
        (one_file_env "run.json"
           (JObj [("tasks" : pystr, JStr "ab"); ("filesOnDisk" : pystr, JStr "yes")]))
  = Ok (JObj [("tasks" : pystr, JStr "ab"); ("filesOnDisk" : pystr, JStr "yes")],
        JStr "yes").
Proof.
  split.
  - apply (single_object_payload "run.json" [("tasks" : pystr, JArr [JInt 1])]
             (JArr [JInt 1]) 1 false); reflexivity.
  - apply (single_object_payload "run.json"
             [("tasks" : pystr, JStr "ab"); ("filesOnDisk" : pystr, JStr "yes")]
             (JStr "ab") 2 false); reflexivity.
Defined.

Lemma combine_items_fragments (data : list json) (tss : list (list json)) :
  Forall2 fragment data tss ->
  forall st,
    combine_items st data
    = Ok (fst st ++ concat tss, fold_left merge_flag data (snd st)).
Proof.
  induction 1 as [| item ts data tss (d & -> & Hts) _ IH]; intros [all_tasks fod].
  - cbn. now rewrite app_nil_r.
  - cbn [combine_items combine_item]. unfold has_key, getitem. rewrite Hts.
    cbn [rbind py_iter fold_left merge_flag].
    destruct (lookup "filesOnDisk" d) as [f |]; cbn [rbind];
      rewrite IH; cbn [fst snd concat]; now rewrite <- app_assoc.
Qed.

(** X9. A JSON array whose elements all carry an array of tasks gives the
    workload of these tasks, spliced in as they are and in order; its
    flag is the conjunction, from [True], of the fields [filesOnDisk] of
    the elements that have one. *)
Theorem array_of_fragments :
  forall (p : pystr) (data : list json) (tss : list (list json))
         (verbose : bool) (env : environ),
    endswith p ".json" = true ->
    file env (PathOf p) = JsonFile (JArr data) ->
    Forall2 fragment data tss ->
    value (parse_payload [p] verbose) env
    = Ok (make_workload (fold_left merge_flag data (JBool true)) (concat tss),
          fold_left merge_flag data (JBool true)).
Proof.
  intros p data tss verbose env Hends Hfile Hfr.
  unfold value, parse_payload, bind, log, ask, raise, emit, ret, lift.
  cbn [length Nat.eqb nth andb]. rewrite Hends, Hfile.
  rewrite (combine_items_fragments data tss Hfr). cbn [fst snd app].
  destruct verbose; reflexivity.
Qed.

Lemma array_of_fragments_witness :
  value (parse_payload ["parts.json" : pystr] false)
        (one_file_env "parts.json"
           (JArr [JObj [("tasks" : pystr, JArr [JInt 1]); ("filesOnDisk" : pystr, JInt 0)];
                  JObj [("tasks" : pystr, JArr [JStr "k"])];
                  JObj [("filesOnDisk" : pystr, JBool false);
                        ("tasks" : pystr, JArr [])]]))
  = Ok (make_workload (JInt 0) [JInt 1; JStr "k"], JInt 0).
Proof.
  apply (array_of_fragments "parts.json"
           [JObj [("tasks" : pystr, JArr [JInt 1]); ("filesOnDisk" : pystr, JInt 0)];
            JObj [("tasks" : pystr, JArr [JStr "k"])];
            JObj [("filesOnDisk" : pystr, JBool false); ("tasks" : pystr, JArr [])]]
           [[JInt 1]; [JStr "k"]; []] false).
  - reflexivity.
  - reflexivity.
  - repeat constructor; eexists; (split; [reflexivity | reflexivity]).
Defined.

End Payload.

(** ** More on the metrics extractor *)

(** Takes a line apart along the cases of [parse_line]. *)
Ltac parse_line_cases :=
  repeat match goal with
         | |- context [match re_search ?p ?l with _ => _ end] =>
             destruct (re_search p l) eqn:?
         | |- context [rbind (py_int ?x) _] =>
             destruct (py_int x) eqn:?; cbn [rbind]
         | |- context [rbind (py_float ?x) _] =>
             destruct (py_float x) eqn:?; cbn [rbind]
         | |- context [rbind (four_floats ?g) _] =>
             destruct (four_floats g) as [[[[? ?] ?] ?] |] eqn:?; cbn [rbind]
         end.

Section MetricsMerge.

Lemma split_app_any (c : ascii) (a b : pystr) :
  split c (a ++ c :: b) = split c a ++ split c b.
Proof.
  induction a as [| x a IH].
  - cbn [app split]. unfold chr_eqb. now rewrite Ascii.eqb_refl.
  - cbn [app split]. rewrite IH.
    destruct (chr_eqb x c); [reflexivity |].
    pose proof (split_nonempty c a) as Hne.
    destruct (split c a); [congruence | reflexivity].
Qed.

Lemma parse_lines_app (l1 l2 : list pystr) :
  forall m, parse_lines m (l1 ++ l2)
            = rbind (parse_lines m l1) (fun m' => parse_lines m' l2).
Proof.
  induction l1 as [| line l1 IH]; intros m; [reflexivity |].
  cbn [app parse_lines]. destruct (parse_line m line); cbn [rbind]; [apply IH | reflexivity].
Qed.

Lemma merge_add_run (ma m : metrics) (r : run_entry) :
  add_run (merge_metrics ma m) r = merge_metrics ma (add_run m r).
Proof. unfold add_run, merge_metrics. cbn. now rewrite app_assoc. Qed.

Lemma parse_line_merge (ma m0 m1 : metrics) (line : pystr) :
  parse_line m0 line = Ok m1 ->
  parse_line (merge_metrics ma m0) line = Ok (merge_metrics ma m1).
Proof.
  unfold parse_line. parse_line_cases; try discriminate; intros [= <-];
    rewrite ?merge_add_run; reflexivity.
Qed.

Lemma parse_lines_merge (ma : metrics) (lines : list pystr) :
  forall m0 m1,
    parse_lines m0 lines = Ok m1 ->
    parse_lines (merge_metrics ma m0) lines = Ok (merge_metrics ma m1).
Proof.
  induction lines as [| line rest IH]; intros m0 m1 H.
  - cbn in *. now injection H as <-.
  - cbn [parse_lines] in *.
    destruct (parse_line m0 line) as [m |] eqn:E; [| discriminate].
    rewrite (parse_line_merge ma m0 m line E). cbn [rbind] in *. now apply IH.
Qed.

Lemma merge_empty (m : metrics) : merge_metrics m empty_metrics = m.
Proof. destruct m. unfold merge_metrics. cbn. now rewrite app_nil_r. Qed.

(** X14. The metrics of two outputs written one after the other are the
    metrics of each put together: the runs of both in order, and for
    every other field the value of the second output when it has one. *)
Theorem parse_metrics_of_two_outputs :
  forall (out1 out2 : pystr) (m1 m2 : metrics),
    parse_metrics out1 = Ok m1 -> parse_metrics out2 = Ok m2 ->
    parse_metrics (out1 ++ [newline] ++ out2) = Ok (merge_metrics m1 m2).
Proof.
  intros out1 out2 m1 m2 H1 H2. unfold parse_metrics in *.
  cbn [app]. rewrite split_app_any, parse_lines_app, H1. cbn [rbind].
  rewrite <- (merge_empty m1) at 1. now apply parse_lines_merge.
Qed.

Lemma parse_metrics_of_two_outputs_witness :
  parse_metrics ("Run:1 Secs:0.5 Gb/s:8" ++ [newline] ++ "Run:2 Secs:1. Gb/s:4 Peak RSS:7 MiB")
  = Ok (mkMetrics [mkRun 1 (1 # 2) (8 # 1); mkRun 2 (1 # 1) (4 # 1)]
          None None None None None None None None (Some (7 # 1))).
Proof.
  apply (parse_metrics_of_two_outputs "Run:1 Secs:0.5 Gb/s:8"
           "Run:2 Secs:1. Gb/s:4 Peak RSS:7 MiB"
           (mkMetrics [mkRun 1 (1 # 2) (8 # 1)]
                      None None None None None None None None None)
           (mkMetrics [mkRun 2 (1 # 1) (4 # 1)]
                      None None None None None None None None (Some (7 # 1))));
    reflexivity.
Defined.

Lemma py_int_raises (s : pystr) (e : exn) : py_int s = Raise e -> e = ValueError s.
Proof.
  unfold py_int.
  match goal with |- match ?r with _ => _ end = _ -> _ => destruct r end;
    [discriminate | now intros [= <-]].
Qed.

Lemma py_float_raises (s : pystr) (e : exn) : py_float s = Raise e -> e = ValueError s.
Proof.
  unfold py_float.
  repeat match goal with
         | |- context [match ?x with _ => _ end] => destruct x
         end; try discriminate; now intros [= <-].
Qed.

Lemma four_floats_raises (g : list pystr) (e : exn) :
  four_floats g = Raise e -> exists s, e = ValueError s.
Proof.
  unfold four_floats.
  repeat match goal with
         | |- context [rbind (py_float ?x) _] =>
             let E := fresh "E" in
             destruct (py_float x) eqn:E; cbn [rbind];
             [| apply py_float_raises in E; intros [= <-]; eauto ]
         end.
  discriminate.
Qed.

Lemma parse_line_raises (m : metrics) (line : pystr) (e : exn) :
  parse_line m line = Raise e -> exists s, e = ValueError s.
Proof.
  unfold parse_line. parse_line_cases; try discriminate; intros [= <-];
    repeat match goal with
           | H : py_int _ = Raise _ |- _ => apply py_int_raises in H
           | H : py_float _ = Raise _ |- _ => apply py_float_raises in H
           | H : four_floats _ = Raise _ |- _ => apply four_floats_raises in H as [? ?]
           end; subst; eauto.
Qed.

(** X15. The only error of the extractor is the [ValueError] of a number
    that cannot be converted. *)
Theorem parse_metrics_raises_only_value_error :
  forall (output : pystr) (e : exn),
    parse_metrics output = Raise e -> exists s, e = ValueError s.
Proof.
  intros output e. unfold parse_metrics.
  generalize empty_metrics. generalize (split newline output).
  induction l as [| line rest IH]; intros m H; [discriminate |].
  cbn [parse_lines] in H.
  destruct (parse_line m line) as [m' |] eqn:E; cbn [rbind] in H.
  - now apply (IH m').
  - injection H as <-. now apply (parse_line_raises m line).
Qed.

Lemma parse_metrics_raises_only_value_error_witness :
  exists s, ValueError "1.2.3" = ValueError s.
Proof.
  apply (parse_metrics_raises_only_value_error "Run:1 Secs:1.2.3 Gb/s:4").
  reflexivity.
Defined.

End MetricsMerge.

Section MetricsFields.

Lemma parse_line_fields (m m' : metrics) (line : pystr) :
  parse_line m line = Ok m' ->
  length (runs m') = (length (runs m) + (if found run_pattern line then 1 else 0))%nat /\
  is_some (throughput_median m')
  = is_some (throughput_median m) || found throughput_pattern line /\
  is_some (duration_median m')
  = is_some (duration_median m) || found duration_pattern line /\
  is_some (peak_rss m') = is_some (peak_rss m) || found rss_pattern line.
Proof.
  unfold parse_line, found. destruct m.
  parse_line_cases; try discriminate; intros [= <-]; cbn;
    rewrite ?length_app, ?orb_true_r, ?orb_false_r; cbn; repeat split; lia.
Qed.

Lemma parse_lines_fields (lines : list pystr) :
  forall m m',
    parse_lines m lines = Ok m' ->
    length (runs m') = (length (runs m) + length (filter (found run_pattern) lines))%nat /\
    is_some (throughput_median m')
    = is_some (throughput_median m) || existsb (found throughput_pattern) lines /\
    is_some (duration_median m')
    = is_some (duration_median m) || existsb (found duration_pattern) lines /\
    is_some (peak_rss m') = is_some (peak_rss m) || existsb (found rss_pattern) lines.
Proof.
  induction lines as [| line rest IH]; intros m m' H.
  - cbn in *. injection H as <-. rewrite !orb_false_r. repeat split; lia.
  - cbn [parse_lines] in H.
    destruct (parse_line m line) as [m1 |] eqn:E; [| discriminate]. cbn [rbind] in H.
    destruct (parse_line_fields _ _ _ E) as (Hr & Ht & Hd & Hp).
    destruct (IH _ _ H) as (Hr' & Ht' & Hd' & Hp').
    cbn [filter existsb]. rewrite Hr', Ht', Hd', Hp', Hr, Ht, Hd, Hp, !orb_assoc.
    repeat split. destruct (found run_pattern line); cbn [length]; lia.
Qed.

(** X13. In the metrics of an output each aggregate is carried whole or not
    at all; there are as many runs as lines in which a run is found; and
    the throughput, the duration and the peak memory are set exactly when
    a line is found with their pattern. *)
Theorem parse_metrics_fields :
  forall (output : pystr) (m : metrics),
    parse_metrics output = Ok m ->
    let lines := split newline output in
    well_formed m /\
    length (runs m) = length (filter (found run_pattern) lines) /\
    is_some (throughput_of m) = existsb (found throughput_pattern) lines /\
    is_some (duration_of m) = existsb (found duration_pattern) lines /\
    is_some (peak_rss m) = existsb (found rss_pattern) lines.
Proof.
  intros output m H lines.
  pose proof (parse_metrics_well_formed output m H) as Hwf.
  destruct (parse_lines_fields _ _ _ H) as (Hr & Ht & Hd & Hp).
  split; [exact Hwf |]. split; [exact Hr |].
  cbn [empty_metrics throughput_median duration_median peak_rss is_some orb] in *.
  fold lines in Ht, Hd, Hp. rewrite <- Ht, <- Hd, <- Hp.
  destruct Hwf as [Hwt Hwd]. unfold throughput_of, duration_of, all_or_nothing in *.
  repeat split.
  - destruct Hwt as [(-> & -> & -> & ->) | Hq]; [reflexivity |].
    destruct (throughput_median m), (throughput_mean m), (throughput_min m),
      (throughput_max m); try reflexivity; now contradiction Hq.
  - destruct Hwd as [(-> & -> & -> & ->) | Hq]; [reflexivity |].
    destruct (duration_median m), (duration_mean m), (duration_min m),
      (duration_max m); try reflexivity; now contradiction Hq.
Qed.

Lemma parse_metrics_fields_witness :
  let m := mkMetrics [mkRun 1 (1 # 2) (8 # 1)]
             None None None None None None None None (Some (7 # 1)) in
  let lines := split newline ("Run:1 Secs:0.5 Gb/s:8 Run:2 Secs:1 Gb/s:1"
                              ++ [newline] ++ "Peak RSS:7 MiB") in
  well_formed m /\
  length (runs m) = length (filter (found run_pattern) lines) /\
  is_some (throughput_of m) = existsb (found throughput_pattern) lines /\
  is_some (duration_of m) = existsb (found duration_pattern) lines /\
  is_some (peak_rss m) = existsb (found rss_pattern) lines.
Proof.
  apply (parse_metrics_fields
           ("Run:1 Secs:0.5 Gb/s:8 Run:2 Secs:1 Gb/s:1" ++ [newline] ++ "Peak RSS:7 MiB")).
  reflexivity.
Defined.

End MetricsFields.

Section RunLine.








End RunLine.

(** ** More on the table and on the clients *)

Section TableShape.

Variable format_2f : Q -> pystr.

Lemma length_str_repeat (c : ascii) (n : nat) : length (str_repeat [c] n) = n.
Proof. induction n as [| n IH]; [reflexivity |]. cbn [str_repeat app length]. now rewrite IH. Qed.

Lemma length_ljust (s : pystr) (w : Z) :
  Z.of_nat (length (ljust s w)) = Z.max (Z.of_nat (length s)) w.
Proof.
  unfold ljust. change (lit " ") with [" "%char].
  rewrite length_app, length_str_repeat. lia.
Qed.

Lemma length_row (vw : Z) (name c1 c2 : pystr) :
  Z.of_nat (length (row vw name c1 c2))
  = 10 + Z.max (Z.of_nat (length name)) 23 + Z.max (Z.of_nat (length c1)) (vw - 2)
    + Z.max (Z.of_nat (length c2)) (vw - 2).
Proof.
  unfold row, txt, metric_col_width.
  rewrite !length_app, !length_map, !length_app. cbn [length].
  change (length (lit " ")) with 1%nat.
  pose proof (length_ljust name (25 - 2)).
  pose proof (length_ljust c1 (vw - 2)).
  pose proof (length_ljust c2 (vw - 2)). lia.
Qed.

Lemma length_border (vw : Z) (left right : box) :
  0 <= vw -> Z.of_nat (length (border vw left right)) = 27 + 2 * vw.
Proof.
  intros Hvw. unfold border, sep, metric_col_width.
  change (Z.to_nat 25) with 25%nat.
  change (tl (repeat (Bx BoxH) 25 ++ [Bx BoxTee] ++ repeat (Bx BoxH) (Z.to_nat vw)
              ++ [Bx BoxTee] ++ repeat (Bx BoxH) (Z.to_nat vw)))
    with (repeat (Bx BoxH) 24 ++ [Bx BoxTee] ++ repeat (Bx BoxH) (Z.to_nat vw)
              ++ [Bx BoxTee] ++ repeat (Bx BoxH) (Z.to_nat vw)).
  rewrite !length_app.
  assert (Hrl : forall l : text, l <> [] -> length (removelast l) = pred (length l)).
  { intros l Hl. destruct (exists_last Hl) as (l' & x & ->).
    rewrite removelast_last, length_app. cbn [length]. lia. }
  rewrite Hrl by (cbn; discriminate).
  rewrite !length_app, !repeat_length. cbn [length]. lia.
Qed.

(** X17. The borders of the table are two characters shorter than its rows:
    with value columns of width [w] a border has [27 + 2w] characters and
    a row whose cells fit has [29 + 2w]; and the row that says that the
    metrics are not available, whose text is wider than its cell, has
    [31 + 2w]. The width [w] is at least 15. *)
Theorem table_geometry :
  forall (label1 label2 : pystr),
    let vw := value_col_width label1 label2 in
    15 <= vw /\
    (forall left right, Z.of_nat (length (border vw left right)) = 27 + 2 * vw) /\
    (forall name cell1 cell2,
       Z.of_nat (length name) <= 23 ->
       Z.of_nat (length cell1) <= vw - 2 -> Z.of_nat (length cell2) <= vw - 2 ->
       Z.of_nat (length (row vw name cell1 cell2)) = 29 + 2 * vw) /\
    Z.of_nat (length (not_available_row vw)) = 31 + 2 * vw.
Proof.
  intros label1 label2 vw.
  assert (Hvw : 15 <= vw) by (unfold vw, value_col_width; lia).
  split; [exact Hvw |]. split; [| split].
  - intros left right. apply length_border. lia.
  - intros name c1 c2 Hn H1 H2. rewrite length_row. lia.
  - unfold not_available_row. rewrite length_row.
    change (Z.of_nat (length (lit "  (metrics not available)"))) with 25.
    change (Z.of_nat (length (lit ""))) with 0. lia.
Qed.

Lemma table_lines_defined (c1 b1 c2 b2 : pystr) (m1 m2 : metrics) :
  well_formed m1 -> well_formed m2 ->
  exists lines, table_lines format_2f c1 b1 m1 c2 b2 m2 = Ok lines.
Proof.
  intros H1 H2. unfold table_lines.
  generalize (value_col_width (c1 ++ ":" ++ b1) (c2 ++ ":" ++ b2)). intros w.
  destruct m1 as [r1 a1 b1' c1' d1 e1 f1 g1 h1 p1].
  destruct m2 as [r2 a2 b2' c2' d2 e2 f2 g2 h2 p2].
  destruct H1 as [Ht1 Hd1], H2 as [Ht2 Hd2].
  unfold all_or_nothing in *. cbn [throughput_median throughput_mean throughput_min
    throughput_max duration_median duration_mean duration_min duration_max] in *.
  unfold throughput_rows, duration_rows, rss_row.
  cbn [throughput_median throughput_mean throughput_min
    throughput_max duration_median duration_mean duration_min duration_max peak_rss].
  destruct Ht1 as [(-> & -> & -> & ->) | Ht1];
    [| destruct a1, b1', c1', d1; try (now contradiction Ht1) ];
  (destruct Ht2 as [(-> & -> & -> & ->) | Ht2];
    [| destruct a2, b2', c2', d2; try (now contradiction Ht2) ]);
  (destruct Hd1 as [(-> & -> & -> & ->) | Hd1];
    [| destruct e1, f1, g1, h1; try (now contradiction Hd1) ]);
  (destruct Hd2 as [(-> & -> & -> & ->) | Hd2];
    [| destruct e2, f2, g2, h2; try (now contradiction Hd2) ]);
  destruct p1, p2; eexists; reflexivity.
Qed.

(** X18. The renderer never fails on what the extractor returns: the
    metrics of any two outputs have a table. *)
Theorem table_of_parsed_metrics :
  forall (output1 output2 c1 b1 c2 b2 : pystr) (m1 m2 : metrics),
    parse_metrics output1 = Ok m1 -> parse_metrics output2 = Ok m2 ->
    exists table, format_comparison_table format_2f c1 b1 m1 c2 b2 m2 = Ok table.
Proof.
  intros o1 o2 c1 b1 c2 b2 m1 m2 H1 H2.
  destruct (table_lines_defined c1 b1 c2 b2 m1 m2
              (parse_metrics_well_formed o1 m1 H1) (parse_metrics_well_formed o2 m2 H2))
    as [lines Hl].
  exists (join_lines lines). unfold format_comparison_table. now rewrite Hl.
Qed.

(** X19. The renderer tests the median alone before it formats the four
    values of the throughput: when both medians are set and another of
    these values is not, it fails with a [TypeError]. *)
Theorem table_guard_tests_the_median_only :
  forall (c1 b1 c2 b2 : pystr) (m1 m2 : metrics),
    is_some (throughput_median m1) = true -> is_some (throughput_median m2) = true ->
    throughput_of m1 = None \/ throughput_of m2 = None ->
    format_comparison_table format_2f c1 b1 m1 c2 b2 m2 = Raise TypeError.
Proof.
  intros c1 b1 c2 b2 m1 m2 H1 H2 Hq.
  unfold format_comparison_table, table_lines, throughput_rows.
  rewrite H1, H2. cbn [andb]. unfold throughput_of, quadruple in Hq.
  unfold aggregate_rows, value_row, cell_2f.
  destruct (throughput_median m1), (throughput_median m2); try discriminate.
  destruct (throughput_mean m1), (throughput_mean m2); try reflexivity;
    destruct (throughput_min m1), (throughput_min m2); try reflexivity;
      destruct (throughput_max m1), (throughput_max m2); try reflexivity;
        destruct Hq; discriminate.
Qed.

End TableShape.

Lemma table_of_parsed_metrics_witness :
  exists table,
    format_comparison_table sample_format_2f "crt-c" "main"
      (mkMetrics [] None None None None None None None None (Some (7 # 1)))
      "crt-java" "main" empty_metrics = Ok table.
Proof.
  apply (table_of_parsed_metrics sample_format_2f "Peak RSS:7 MiB" "no metrics here");
    reflexivity.
Defined.

Lemma table_guard_tests_the_median_only_witness :
  format_comparison_table sample_format_2f "crt-c" "main"
    (mkMetrics [] (Some (1 # 1)) None None None None None None None None)
    "crt-java" "main"
    (mkMetrics [] (Some (1 # 1)) (Some (1 # 1)) (Some (1 # 1)) (Some (1 # 1))
               None None None None None)
  = Raise TypeError.
Proof.
  apply (table_guard_tests_the_median_only sample_format_2f);
    solve [reflexivity | left; reflexivity].
Defined.

Section Clients.

Lemma mem_In (x : pystr) (l : list pystr) : mem x l = true -> In x l.
Proof.
  unfold mem. intros H. apply existsb_exists in H as (y & Hy & E).
  apply str_eqb_eq in E. now subst.
Qed.

Lemma In_mem (x : pystr) (l : list pystr) : In x l -> mem x l = true.
Proof.
  unfold mem. intros H. apply existsb_exists. exists x. split; [exact H |].
  apply str_eqb_refl.
Qed.

Lemma known_client_cases (c : pystr) :
  In c known_clients <->
  (str_eqb c "crt-c" || mem c python_clients || mem c java_clients
   || str_eqb c "sdk-rust-tm") = true.
Proof.
  unfold known_clients. rewrite !in_app_iff, !orb_true_iff. cbn [In].
  split.
  - intros [[<- | []] | [H | [H | [<- | []]]]].
    + left. left. now left.
    + left. left. right. now apply In_mem.
    + left. right. now apply In_mem.
    + right. reflexivity.
  - intros [[[H | H] | H] | H].
    + left. left. symmetry. now apply str_eqb_eq.
    + right. left. now apply mem_In.
    + right. right. left. now apply mem_In.
    + right. right. right. left. symmetry. now apply str_eqb_eq.
Qed.

(** X10. The build types and the runners are known for the same twelve
    client names: for each of them there is one of the four build types
    and a command of the runner, which ends with the name of the client,
    the path of the workload, the bucket, the region and the throughput;
    for any other name both lookups raise the unknown-client error. *)
Theorem build_types_and_runners_agree :
  forall (env : environ) (c w b r t : pystr),
    (In c known_clients ->
     exists build_type cmd,
       get_build_type c = Ok build_type /\
       In build_type ["aws-c-s3" : pystr; "python" : pystr; "java" : pystr;
                      "rust" : pystr] /\
       runner_cmd env c w b r t = Ok cmd /\
       skipn (length cmd - 5) cmd = [c; w; b; r; t]) /\
    (~ In c known_clients ->
     get_build_type c = Raise (unknown_client c) /\
     runner_cmd env c w b r t = Raise (unknown_client c)).
Proof.
  intros env c w b r t. rewrite known_client_cases.
  unfold get_build_type, runner_cmd.
  destruct (str_eqb c "crt-c"); [| destruct (mem c python_clients);
    [| destruct (mem c java_clients); [| destruct (str_eqb c "sdk-rust-tm")]]];
    cbn [orb]; (split; [intros H | intros H]);
    try discriminate; try (now contradiction H);
    try (do 2 eexists; split; [reflexivity |];
         split; [cbn; tauto |]; split; reflexivity).
  split; reflexivity.
Qed.

(** X11. The rebuild of a known client always spawns the clear script and
    then the build script, and its result is decided by the build alone:
    the exit status of the clear script is ignored. *)
Theorem rebuild_ignores_the_clear_status :
  forall (name build_type : pystr) (verbose : bool) (env : environ) (n : nat),
    get_build_type name = Ok build_type ->
    exists ev,
      rebuild_client name verbose env n
      = (if exit_status env (S n) =? 0 then Ok tt
         else Raise (Exception ("Build failed for " ++ name)), ev, S (S n)) /\
      spawned ev = [clear_cmd env build_type; build_cmd env build_type].
Proof.
  intros name bt v env n Hbt.
  destruct (rebuild_client name v env n) as [[r ev] n'] eqn:E.
  exists ev.
  apply rebuild_client_inv in E
    as [_ [(Hr & _) | (bt' & Hbt' & -> & Hsp & [(Hx & -> & _) | (Hx & ->)])]];
    try congruence.
  - assert (bt' = bt) as -> by congruence. split; [| exact Hsp].
    apply Z.eqb_neq in Hx. now rewrite Hx.
  - assert (bt' = bt) as -> by congruence. split; [| exact Hsp].
    now rewrite Hx.
Qed.

End Clients.

Lemma rebuild_ignores_the_clear_status_witness :
  exit_status clear_fails_env 3%nat = 1 /\
  exists ev,
    rebuild_client "crt-c" false clear_fails_env 3%nat
    = (if exit_status clear_fails_env 4%nat =? 0 then Ok tt
       else Raise (Exception ("Build failed for " ++ "crt-c")), ev, 5%nat) /\
    spawned ev = [clear_cmd clear_fails_env "aws-c-s3"; build_cmd clear_fails_env "aws-c-s3"].
Proof.
  split; [reflexivity |].
  apply (rebuild_ignores_the_clear_status "crt-c" "aws-c-s3" false clear_fails_env 3%nat).
  reflexivity.
Defined.

(** ** Events of a kind *)

Section Confined.

Context {A B : Type} (P : event -> bool).

Lemma confined_ret (a : A) : confined P (ret a).
Proof. intros env n. reflexivity. Qed.

Lemma confined_raise (e : exn) : confined P (@raise A e).
Proof. intros env n. reflexivity. Qed.

Lemma confined_lift (r : result A) : confined P (lift r).
Proof. intros env n. reflexivity. Qed.

Lemma confined_bind (m : M A) (f : A -> M B) :
  confined P m -> (forall a, confined P (f a)) -> confined P (bind m f).
Proof.
  intros Hm Hf env n. specialize (Hm env n). unfold bind.
  destruct (m env n) as [[[a | e] ev] n1]; cbn [fst snd] in *; [| exact Hm].
  specialize (Hf a env n1). destruct (f a env n1) as [[r ev'] n2]. cbn [fst snd] in *.
  now rewrite forallb_app, Hm, Hf.
Qed.

Lemma confined_inv (m : M A) (env : environ) (n n' : nat) (r : result A)
  (ev : list event) :
  confined P m -> m env n = (r, ev, n') -> forallb P ev = true.
Proof. intros Hm E. specialize (Hm env n). now rewrite E in Hm. Qed.

End Confined.

Section ConfinedSteps.

Variable P : event -> bool.

Lemma confined_ask : confined P ask.
Proof. intros env n. reflexivity. Qed.

Lemma confined_emit (e : event) : P e = true -> confined P (emit e).
Proof. intros H env n. cbn. now rewrite H. Qed.

Lemma confined_log (msg : pystr) (verbose : bool) :
  (verbose = true -> P (Log msg) = true) -> confined P (log msg verbose).
Proof.
  intros H env n. destruct verbose; [| reflexivity]. cbn. now rewrite H.
Qed.

Lemma confined_spawn (cmd : list pystr) (cwd : option path) (mode : spawn_mode) :
  P (Spawn cmd cwd mode) = true -> confined P (subprocess_run cmd cwd mode).
Proof. intros H env n. cbn. now rewrite H. Qed.

End ConfinedSteps.

(** One step of a proof that a computation is confined; what is left is
    a condition on an event. *)
Ltac confined_step :=
  first [ apply confined_ret | apply confined_raise | apply confined_lift
        | apply confined_ask
        | apply confined_bind; [| intros ?]
        | apply confined_emit | apply confined_log | apply confined_spawn
        | match goal with
          | |- confined _ (match ?x with _ => _ end) => destruct x
          | |- confined _ (let '_ := ?x in _) => destruct x
          end ].

Section Silence.

Lemma silent_parse_names (names : list pystr) :
  forall st, confined silent (parse_names names false st).
Proof.
  induction names as [| name rest IH]; intros st; cbn [parse_names].
  - apply confined_ret.
  - repeat first [ apply IH | confined_step ]; discriminate.
Qed.

Lemma silent_parse_payload (payload_args : list pystr) :
  confined silent (parse_payload payload_args false).
Proof.
  unfold parse_payload.
  repeat first [ apply silent_parse_names | confined_step ]; discriminate.
Qed.

Lemma silent_run_command (cmd : list pystr) (cwd : option path) :
  confined silent (run_command cmd cwd false).
Proof. unfold run_command. repeat confined_step; reflexivity. Qed.

Lemma silent_prep_files (w b r : pystr) : confined silent (prep_files w b r false).
Proof.
  unfold prep_files.
  repeat first [ apply silent_run_command | confined_step ]; (reflexivity || discriminate).
Qed.

Lemma silent_checkout_branch (repo branch : pystr) :
  confined silent (checkout_branch repo branch false).
Proof.
  unfold checkout_branch.
  repeat first [ apply silent_run_command | confined_step ]; (reflexivity || discriminate).
Qed.

Lemma silent_rebuild_client (name : pystr) : confined silent (rebuild_client name false).
Proof.
  unfold rebuild_client.
  repeat first [ apply silent_run_command | confined_step ]; (reflexivity || discriminate).
Qed.

Lemma silent_run_benchmark (name w b r t : pystr) :
  confined silent (run_benchmark name w b r t false).
Proof.
  unfold run_benchmark.
  repeat first [ apply silent_run_command | confined_step ]; (reflexivity || discriminate).
Qed.

Variable format_2f : Q -> pystr.

Lemma silent_main_try (a : args) : confined silent (main_try format_2f a false).
Proof.
  unfold main_try, run_client.
  repeat first [ apply silent_parse_payload | apply silent_prep_files
               | apply silent_checkout_branch | apply silent_rebuild_client
               | apply silent_run_benchmark | confined_step ];
    (reflexivity || discriminate).
Qed.

(** X25. A comparison whose argument [--verbose] is not [true], in any
    case of the letters, logs nothing and shows nothing of what its
    processes print: each process is spawned with its output discarded or
    captured, and no captured output is echoed on the standard output.
    What it prints is the table or the error line, and on the error
    stream the report of a runner that failed. *)
Theorem quiet_comparison_is_silent :
  forall (a : args) (env : environ),
    str_eqb (lower (verbose a)) "true" = false ->
    forallb silent (snd (main format_2f a env)) = true.
Proof.
  intros a env Hv. unfold main. rewrite Hv.
  pose proof (silent_main_try a env 0%nat) as H.
  destruct (main_try format_2f a false env 0%nat) as [[[[] | e] tr] n'];
    cbn [fst snd] in *; [exact H |].
  now rewrite forallb_app, H.
Qed.

End Silence.

Lemma quiet_comparison_is_silent_witness :
  forallb silent (snd (main sample_format_2f unknown_client_args example_env)) = true.
Proof.
  apply (quiet_comparison_is_silent sample_format_2f unknown_client_args example_env).
  reflexivity.
Defined.

(** ** More on the driver *)

Section Reports.

Variable format_2f : Q -> pystr.

(** X20. Every comparison reports once: either it prints the table, removes
    the temporary file and exits with code 0, or it prints one error line
    as its last act and exits with code 1; before the report there is no
    table and no error line. *)
Theorem comparison_reports_once :
  forall (a : args) (env : environ),
    (exists pre table,
        main format_2f a env = (0, pre ++ [Table table; Unlink (tmp_name env)]) /\
        no_report pre) \/
    (exists pre e,
        main format_2f a env = (1, pre ++ [ErrorLine e]) /\ no_report pre).
Proof.
  intros a env. destruct (main_outcome format_2f a env) as (s & _ & Hf).
  destruct s as [| | st | st | |];
    cbn [stop_facts] in Hf;
    repeat match goal with
           | H : _ /\ _ |- _ => destruct H
           | H : exists _, _ |- _ => destruct H
           end;
    first [ left; do 2 eexists; split; [apply main_pair; eassumption | assumption]
          | right; do 2 eexists; split; [apply main_pair; eassumption | assumption] ].
Qed.

(** X21. The processes of a comparison are the first ones of its plan, in
    the order of the plan: the file preparation, then fetch, checkout,
    clear, build and run for client 1, then the same for client 2; a
    comparison that exits with code 0 has spawned all eleven. *)
Theorem processes_follow_the_plan :
  forall (a : args) (env : environ),
    exists k : nat,
      (k <= 11)%nat /\
      spawned (snd (main format_2f a env)) = firstn k (plan env a) /\
      (fst (main format_2f a env) = 0 -> k = 11%nat).
Proof.
  intros a env. destruct (main_outcome format_2f a env) as (s & Hsp & Hf).
  exists (stop_spawns s). split; [| split; [exact Hsp |]].
  - destruct s as [| | st | st | |]; try destruct st; cbn; lia.
  - intros Hcode. destruct s as [| | st | st | |]; cbn [stop_facts] in Hf;
      try reflexivity; destruct Hf as [Hc _]; congruence.
Qed.

End Reports.



Section Success.
Variable format_2f : Q -> pystr.






End Success.

Section Steps.








End Steps.


Section TempFile.

Variable format_2f : Q -> pystr.


End TempFile.


(** ** Working directories *)

Section WorkingDirectories.

Lemma cwds_from_app (a b : list event) :
  forall cur, cwds_from cur (a ++ b) = cwds_from cur a ++ cwds_from (cwd_after cur a) b.
Proof.
  induction a as [| e a IH]; intros cur; [reflexivity |].
  destruct e; cbn [app cwds_from cwd_after]; rewrite IH; reflexivity.
Qed.

Lemma cwd_after_app (a b : list event) :
  forall cur, cwd_after cur (a ++ b) = cwd_after (cwd_after cur a) b.
Proof.
  induction a as [| e a IH]; intros cur; [reflexivity |].
  destruct e; cbn [app cwd_after]; apply IH.
Qed.

Lemma stays_cwds (ev : list event) :
  forallb stays ev = true ->
  (forall cur, cwds_from cur ev = []) /\ (forall cur, cwd_after cur ev = cur).
Proof.
  induction ev as [| e ev IH]; intros H; [now split |].
  cbn [forallb] in H. apply andb_prop in H as [He Hev].
  destruct (IH Hev) as [H1 H2].
  destruct e; try discriminate; cbn [cwds_from cwd_after]; now split.
Qed.

Lemma stays_parse_names (names : list pystr) (verbose : bool) :
  forall st, confined stays (parse_names names verbose st).
Proof.
  induction names as [| name rest IH]; intros st; cbn [parse_names].
  - apply confined_ret.
  - repeat first [ apply IH | confined_step ]; intros; reflexivity.
Qed.

Lemma stays_parse_payload (payload_args : list pystr) (verbose : bool) :
  confined stays (parse_payload payload_args verbose).
Proof.
  unfold parse_payload.
  repeat first [ apply stays_parse_names | confined_step ]; intros; reflexivity.
Qed.

Lemma prep_files_cwds (w b r : pystr) (v : bool) (env : environ) (n n' : nat)
  (res : result unit) (ev : list event) :
  prep_files w b r v env n = (res, ev, n') ->
  (forall cur, cwds_from cur ev = [cur]) /\ (forall cur, cwd_after cur ev = cur).
Proof.
  intros H. destruct v; inv_with unfold_steps; split; reflexivity.
Qed.

Lemma run_client_cwds (idx name branch repo w : pystr) (a : args) (v : bool)
  (env : environ) (n n' : nat) (m : metrics) (ev : list event) :
  run_client idx name branch repo w a v env n = (Ok m, ev, n') ->
  (forall cur,
      cwds_from cur ev
      = [Some (PDiv REPO_ROOT repo); Some (PDiv REPO_ROOT repo); cur; cur;
         Some FILES_DIR]) /\
  (forall cur, cwd_after cur ev = Some FILES_DIR).
Proof.
  intros H. unfold run_client in H.
  destruct v; inv_with unfold_steps; split; reflexivity.
Qed.

Lemma parse_payload_cwds (p : list pystr) (v : bool) (env : environ) (n n' : nat)
  (r : result (json * json)) (ev : list event) :
  parse_payload p v env n = (r, ev, n') ->
  (forall cur, cwds_from cur ev = []) /\ (forall cur, cwd_after cur ev = cur).
Proof.
  intros H. apply stays_cwds.
  exact (confined_inv stays _ _ _ _ _ _ (stays_parse_payload p v) H).
Qed.

Ltac apply_cwd_specs :=
  idtac;
  match goal with
  | H : parse_payload _ _ _ _ = (_, _, _) |- _ => apply parse_payload_cwds in H
  | H : prep_files _ _ _ _ _ _ = (_, _, _) |- _ => apply prep_files_cwds in H
  | H : run_client _ _ _ _ _ _ _ _ _ = (Ok _, _, _) |- _ => apply run_client_cwds in H
  | H : run_client _ _ _ _ _ _ _ _ _ = (Raise _, _, _) |- _ => clear H
  end.

Variable format_2f : Q -> pystr.

(** X24. In a comparison that succeeds, the file preparation and the
    scripts that clear and build client 1 run in the directory the
    comparison was started from, the fetch and the checkout of a client in
    its repository, and both runners in the files directory; the scripts
    that clear and build client 2 run in the files directory as well,
    where the run of client 1 left the script. *)
Theorem working_directories_of_a_comparison :
  forall (a : args) (env : environ),
    fst (main format_2f a env) = 0 ->
    cwds_from None (snd (main format_2f a env))
    = [None;
       Some (PDiv REPO_ROOT (client1_repo a)); Some (PDiv REPO_ROOT (client1_repo a));
       None; None; Some FILES_DIR;
       Some (PDiv REPO_ROOT (client2_repo a)); Some (PDiv REPO_ROOT (client2_repo a));
       Some FILES_DIR; Some FILES_DIR; Some FILES_DIR].
Proof.
  intros a env.
  unfold main.
  destruct (main_try format_2f a (str_eqb (lower (verbose a)) "true") env 0%nat)
    as [[r tr] n'] eqn:E.
  unfold main_try in E.
  destruct (str_eqb (lower (verbose a)) "true");
    inv_with apply_cwd_specs; cbn [fst snd]; try discriminate; intros _;
    repeat (rewrite cwds_from_app || rewrite cwd_after_app);
    cbn [cwds_from cwd_after app];
    repeat match goal with
           | H : forall cur, cwd_after cur _ = _ |- _ => rewrite !H; clear H
           end;
    repeat match goal with
           | H : forall cur, cwds_from cur _ = _ |- _ => rewrite !H; clear H
           end;
    reflexivity.
Qed.

End WorkingDirectories.

Lemma working_directories_of_a_comparison_witness :
  cwds_from None (snd (main sample_format_2f known_clients_args example_env))
  = [None;
     Some (PDiv REPO_ROOT "aws-c-s3"); Some (PDiv REPO_ROOT "aws-c-s3");
     None; None; Some FILES_DIR;
     Some (PDiv REPO_ROOT "aws-crt-java"); Some (PDiv REPO_ROOT "aws-crt-java");
     Some FILES_DIR; Some FILES_DIR; Some FILES_DIR].
Proof.
  apply (working_directories_of_a_comparison sample_format_2f known_clients_args
           example_env).
  reflexivity.
Defined.

(** ** The workload generator *)

Section Generator.



End Generator.

(** ** The dependency graph *)

Section Dependencies.

Lemma str_eqb_sym (a : pystr) : forall b, str_eqb a b = str_eqb b a.
Proof.
  induction a as [| x a IH]; intros [| y b]; try reflexivity.
  cbn [str_eqb]. unfold chr_eqb. now rewrite Ascii.eqb_sym, IH.
Qed.

(** The cases of a name: one of the components of the graph, or a name
    that differs from each of them. *)
Ltac by_component c :=
  let Hc := fresh "Hc" in
  destruct (mem c components) eqn:Hc;
  [ apply mem_In in Hc; unfold components, DEPENDENCIES in Hc;
    cbn [map fst In] in Hc;
    repeat (destruct Hc as [<- | Hc]; [| ]); [.. | contradiction]
  | ].

Ltac rewrite_names :=
  repeat match goal with
         | H : str_eqb ?a ?b = false |- _ =>
             progress (rewrite ?H, ?(eq_trans (str_eqb_sym b a) H))
         end.

Lemma visit_leaf (neighbours : pystr -> list pystr)
  (finish : pystr -> list pystr -> list pystr) (fuel : nat) (comp : pystr) :
  neighbours comp = [] ->
  visit neighbours finish (S fuel) comp ([], []) = Some ([comp], finish comp []).
Proof. intros H. cbn [visit mem existsb]. now rewrite H. Qed.

Lemma not_a_component (c : pystr) :
  mem c components = false -> get_dependencies c = [] /\ get_dependents c = [].
Proof.
  intros Hc. unfold mem, components, DEPENDENCIES in Hc. cbn [map fst existsb] in Hc.
  repeat (apply orb_false_elim in Hc as [?E Hc]).
  unfold get_dependencies, get_dependents, DEPENDENCIES, mem.
  cbn [get_dependencies_in flat_map existsb]. rewrite_names. split; reflexivity.
Qed.

(** X28. The dependencies of a component are listed in build order: the
    list ends with the component, holds no component twice, and every
    component in it comes after all its direct dependencies; it holds
    nothing that is not needed, each component but the last being a
    direct dependency of a later one. For a name that is not in the graph
    the list is the name alone. *)
Theorem dependencies_are_in_build_order :
  forall component : pystr,
    exists before,
      get_all_dependencies component = Some (before ++ [component]) /\
      distinct (before ++ [component]) = true /\
      after_dependencies [] (before ++ [component]) = true /\
      all_needed (before ++ [component]) = true /\
      (mem component components = false -> before = []).
Proof.
  intros c. by_component c.
  all: try (match goal with
            | |- exists before, get_all_dependencies ?x = _ /\ _ =>
                let r := eval vm_compute in (get_all_dependencies x) in
                match r with
                | Some ?l => let b := eval vm_compute in (removelast l) in exists b
                end
            end;
            repeat split; try (vm_compute; reflexivity); discriminate).
  destruct (not_a_component c Hc) as [Hd _].
  exists []. unfold get_all_dependencies, depth_bound.
  rewrite (visit_leaf _ _ _ c Hd). cbn [option_map snd app].
  repeat split; cbn [distinct after_dependencies all_needed mem existsb negb andb];
    rewrite ?Hd; reflexivity.
Qed.

Lemma dependents_of_a_stranger (c : pystr) :
  mem c components = false -> get_all_dependents c = Some [].
Proof.
  intros Hc. destruct (not_a_component c Hc) as [_ Hd].
  unfold get_all_dependents, depth_bound.
  rewrite (visit_leaf _ _ _ c Hd). cbn [option_map snd].
  now rewrite str_eqb_refl.
Qed.

Lemma dependencies_of_a_stranger (c : pystr) :
  mem c components = false -> get_all_dependencies c = Some [c].
Proof.
  intros Hc. destruct (not_a_component c Hc) as [Hd _].
  unfold get_all_dependencies, depth_bound.
  now rewrite (visit_leaf _ _ _ c Hd).
Qed.

(** X29. The dependents of a component are listed in the order in which
    they can be cleared: the list holds no component twice and not the
    component itself, and every component in it comes after all its
    direct dependents; it holds only components that depend on the
    component, each having it or a later one of the list among its
    direct dependencies. A name that is not in the graph has no
    dependent. *)
Theorem dependents_are_in_clearing_order :
  forall component : pystr,
    exists l,
      get_all_dependents component = Some l /\
      mem component l = false /\
      distinct l = true /\
      after_dependents [] l = true /\
      all_depending component l = true /\
      (mem component components = false -> l = []).
Proof.
  intros c. by_component c.
  all: try (eexists; split; [vm_compute; reflexivity |];
            repeat split; try (vm_compute; reflexivity); discriminate).
  exists []. split; [now apply dependents_of_a_stranger |]. now repeat split.
Qed.

Ltac names_differ Hc :=
  unfold mem, components, DEPENDENCIES in Hc; cbn [map fst existsb] in Hc;
  repeat (apply orb_false_elim in Hc as [?E Hc]); clear Hc.

(** X30. The two traversals agree: a component is among all the dependents
    of another exactly when it is not the same and the other is among all
    its dependencies. *)
Theorem dependents_are_the_converse_of_dependencies :
  forall c x : pystr,
    exists dependents dependencies,
      get_all_dependents c = Some dependents /\
      get_all_dependencies x = Some dependencies /\
      mem x dependents = negb (str_eqb x c) && mem c dependencies.
Proof.
  intros c x.
  destruct (mem c components) eqn:Hc; destruct (mem x components) eqn:Hx.
  - apply mem_In in Hc, Hx. unfold components, DEPENDENCIES in Hc, Hx.
    cbn [map fst In] in Hc, Hx.
    repeat (destruct Hc as [<- | Hc]; [| ]); [.. | contradiction];
      (repeat (destruct Hx as [<- | Hx]; [| ]); [.. | contradiction]);
      do 2 eexists; (split; [vm_compute; reflexivity |]);
      (split; [vm_compute; reflexivity |]); vm_compute; reflexivity.
  - rewrite (dependencies_of_a_stranger x Hx). names_differ Hx.
    apply mem_In in Hc. unfold components, DEPENDENCIES in Hc. cbn [map fst In] in Hc.
    repeat (destruct Hc as [<- | Hc]; [| ]); [.. | contradiction];
      do 2 eexists; (split; [vm_compute; reflexivity |]);
      (split; [reflexivity |]); unfold mem; cbn [existsb];
      cbv [lit list_ascii_of_string] in *; rewrite_names; reflexivity.
  - rewrite (dependents_of_a_stranger c Hc). names_differ Hc.
    apply mem_In in Hx. unfold components, DEPENDENCIES in Hx. cbn [map fst In] in Hx.
    repeat (destruct Hx as [<- | Hx]; [| ]); [.. | contradiction];
      do 2 eexists; (split; [reflexivity |]);
      (split; [vm_compute; reflexivity |]); unfold mem; cbn [existsb];
      cbv [lit list_ascii_of_string] in *; rewrite_names; rewrite ?andb_false_r;
      reflexivity.
  - rewrite (dependents_of_a_stranger c Hc), (dependencies_of_a_stranger x Hx).
    do 2 eexists. split; [reflexivity |]. split; [reflexivity |].
    unfold mem. cbn [existsb]. rewrite (str_eqb_sym c x).
    destruct (str_eqb x c); reflexivity.
Qed.

End Dependencies.

(** ** Verbosity *)

Section Verbosity.

Lemma deeds_app (a b : list event) : deeds (a ++ b) = deeds a ++ deeds b.
Proof. apply flat_map_app. Qed.

Lemma similar_refl {A} (m : M A) : similar m m.
Proof. intros env n. now repeat split. Qed.

Lemma similar_bind {A B} (m1 m2 : M A) (f1 f2 : A -> M B) :
  similar m1 m2 -> (forall a, similar (f1 a) (f2 a)) ->
  similar (bind m1 f1) (bind m2 f2).
Proof.
  intros Hm Hf env n. destruct (Hm env n) as (Hr & Hn & Hd). unfold bind.
  destruct (m1 env n) as [[r1 ev1] n1], (m2 env n) as [[r2 ev2] n2].
  cbn [fst snd] in *. subst r2 n2.
  destruct r1 as [a | e]; [| now repeat split].
  destruct (Hf a env n1) as (Hr' & Hn' & Hd').
  destruct (f1 a env n1) as [[r1' ev1'] n1'], (f2 a env n1) as [[r2' ev2'] n2'].
  cbn [fst snd] in *. subst. repeat split. now rewrite !deeds_app, Hd, Hd'.
Qed.

Lemma similar_log (msg1 msg2 : pystr) (v1 v2 : bool) :
  similar (log msg1 v1) (log msg2 v2).
Proof. intros env n. destruct v1, v2; now repeat split. Qed.

Lemma similar_run_command (cmd : list pystr) (cwd : option path) (v1 v2 : bool) :
  similar (run_command cmd cwd v1) (run_command cmd cwd v2).
Proof. intros env n. destruct v1, v2; now repeat split. Qed.

Lemma similar_run_benchmark (name w b r t : pystr) (v1 v2 : bool) :
  similar (run_benchmark name w b r t v1) (run_benchmark name w b r t v2).
Proof.
  intros env n. unfold run_benchmark, bind, log, emit, ask, lift, ret, raise,
    subprocess_run.
  destruct (runner_cmd env name w b r t) as [cmd |]; [| destruct v1, v2; now repeat split].
  destruct v1, v2; cbn [fst snd];
    destruct (negb (length (stderr (proc env n)) =? 0)%nat);
    destruct (negb (returncode (proc env n) =? 0)); now repeat split.
Qed.

(** One step of a proof that two computations of the same shape are
    similar. *)
Ltac similar_step :=
  first [ apply similar_log | apply similar_run_command | apply similar_run_benchmark
        | apply similar_refl
        | apply similar_bind; [| intros ?]
        | match goal with
          | |- similar (match ?x with _ => _ end) (match ?x with _ => _ end) => destruct x
          | |- similar (let '_ := ?x in _) (let '_ := ?x in _) => destruct x
          end ].

Lemma similar_parse_names (names : list pystr) (v1 v2 : bool) :
  forall st, similar (parse_names names v1 st) (parse_names names v2 st).
Proof.
  induction names as [| name rest IH]; intros st; cbn [parse_names].
  - apply similar_refl.
  - repeat first [ apply IH | similar_step ].
Qed.

Lemma similar_parse_payload (p : list pystr) (v1 v2 : bool) :
  similar (parse_payload p v1) (parse_payload p v2).
Proof.
  unfold parse_payload.
  repeat first [ apply similar_parse_names | similar_step ].
Qed.

Variable format_2f : Q -> pystr.

Lemma similar_main_try (a1 a2 : args) (v1 v2 : bool) :
  with_verbose a1 "" = with_verbose a2 "" ->
  similar (main_try format_2f a1 v1) (main_try format_2f a2 v2).
Proof.
  intros Ha. unfold with_verbose in Ha. injection Ha as E1 E2 E3 E4 E5 E6 E7 E8 E9 E10.
  unfold main_try, run_client, prep_files, checkout_branch, rebuild_client.
  rewrite E1, E2, E3, E4, E5, E6, E7, E8, E9, E10.
  repeat first [ apply similar_parse_payload | similar_step ].
Qed.

(** X26. The argument [--verbose] changes what a comparison shows and
    nothing of what it does: with any two values of it the exit code is
    the same and so are, in order, the processes with their directories,
    the file written and removed, the table and the error line. *)
Theorem verbosity_changes_nothing_done :
  forall (a : args) (v1 v2 : pystr) (env : environ),
    fst (main format_2f (with_verbose a v1) env)
    = fst (main format_2f (with_verbose a v2) env) /\
    deeds (snd (main format_2f (with_verbose a v1) env))
    = deeds (snd (main format_2f (with_verbose a v2) env)).
Proof.
  intros a v1 v2 env. unfold main.
  destruct (similar_main_try (with_verbose a v1) (with_verbose a v2)
              (str_eqb (lower (verbose (with_verbose a v1))) "true")
              (str_eqb (lower (verbose (with_verbose a v2))) "true")
              eq_refl env 0%nat) as (Hr & _ & Hd).
  destruct (main_try format_2f (with_verbose a v1) _ env 0%nat) as [[r1 tr1] n1].
  destruct (main_try format_2f (with_verbose a v2) _ env 0%nat) as [[r2 tr2] n2].
  cbn [fst snd] in *. subst r2.
  destruct r1; cbn [fst snd]; [now split |].
  split; [reflexivity |]. now rewrite !deeds_app, Hd.
Qed.

End Verbosity.

(** ** The run of a client *)

Section Runner.

(** X12. The run of a known client changes to the files directory, spawns
    the runner once with its output captured, and returns the captured
    output exactly when the runner exits with status 0; otherwise it
    fails, after copying what the runner wrote on both streams to the
    error stream, in verbose mode or not. When not verbose a run that
    succeeds shows nothing. *)
Theorem run_benchmark_outcome :
  forall (name w b r t : pystr) (cmd : list pystr) (verbose : bool)
         (env : environ) (n : nat),
    runner_cmd env name w b r t = Ok cmd ->
    exists before shown,
      run_benchmark name w b r t verbose env n
      = (if returncode (proc env n) =? 0 then Ok (stdout (proc env n))
         else Raise (Exception ("Benchmark failed for " ++ name)),
         before ++ [Chdir FILES_DIR] ++ shown ++
         (if returncode (proc env n) =? 0 then []
          else failure_report name (proc env n)),
         S n) /\
      deeds before = [] /\
      In (Spawn cmd None Capture) shown /\
      deeds shown = [Spawn cmd None Inherit] /\
      (verbose = false -> before = [] /\ shown = [Spawn cmd None Capture]).
Proof.
  intros name w b r t cmd verbose env n Hcmd.
  unfold run_benchmark, bind, log, emit, ask, lift, ret, raise, subprocess_run.
  rewrite Hcmd. unfold failure_report.
  destruct verbose; cbn [fst snd].
  - exists [Log ([newline] ++ "Running benchmark for " ++ name ++ "...")].
    exists ([Log ("Running: " ++ join " " cmd); Spawn cmd None Capture;
             Echo (stdout (proc env n))]
            ++ (if negb (length (stderr (proc env n)) =? 0)%nat
                then [EchoErr (stderr (proc env n))] else [])).
    destruct (negb (length (stderr (proc env n)) =? 0)%nat);
      destruct (returncode (proc env n) =? 0); cbn [negb];
      (split; [cbn [app]; reflexivity |]);
      cbn; repeat split; try tauto; discriminate.
  - exists [], [Spawn cmd None Capture].
    destruct (returncode (proc env n) =? 0); cbn [negb];
      (split; [cbn [app]; reflexivity |]);
      cbn; repeat split; tauto.
Qed.

End Runner.

Lemma run_benchmark_outcome_witness :
  exists before shown,
    run_benchmark "crt-c" "/tmp/workload.json" "bucket" "us-west-2" "100" false
                  build2_fails_env 9%nat
    = (if returncode (proc build2_fails_env 9) =? 0
       then Ok (stdout (proc build2_fails_env 9))
       else Raise (Exception ("Benchmark failed for " ++ "crt-c")),
       before ++ [Chdir FILES_DIR] ++ shown ++
       (if returncode (proc build2_fails_env 9) =? 0 then []
        else failure_report "crt-c" (proc build2_fails_env 9)),
       10%nat) /\
    deeds before = [] /\
    In (Spawn ["/repo/install/bin/s3-c" : pystr; "crt-c" : pystr;
               "/tmp/workload.json" : pystr; "bucket" : pystr; "us-west-2" : pystr;
               "100" : pystr] None Capture) shown /\
    deeds shown = [Spawn ["/repo/install/bin/s3-c" : pystr; "crt-c" : pystr;
                          "/tmp/workload.json" : pystr; "bucket" : pystr;
                          "us-west-2" : pystr; "100" : pystr] None Inherit] /\
    (false = false ->
     before = [] /\
     shown = [Spawn ["/repo/install/bin/s3-c" : pystr; "crt-c" : pystr;
                     "/tmp/workload.json" : pystr; "bucket" : pystr;
                     "us-west-2" : pystr; "100" : pystr] None Capture]).
Proof.
  apply (run_benchmark_outcome "crt-c" "/tmp/workload.json" "bucket" "us-west-2" "100"
           _ false build2_fails_env 9%nat).
  reflexivity.
Defined.
